(** * Shallow embedding of the annotation engine of [src/annotaor.py]

    The YOLO annotation tool keeps, for the image on screen, a Python list
    [self.image_viewer.annotations] of tuples
    [(cls_id, x_center, y_center, width, height)]; it reads and writes them
    from/to one label file per image and steps through a folder of images.

    Modelling conventions.
    - Python [float] values are IEEE 754 binary64 numbers, modelled by
      [pyfloat]: a finite value is the rational it denotes ([Q]), and
      [inf], [-inf] and [nan] are separate constructors ([float()] accepts
      them from a label file and [int()] raises on them).  Every float
      operation the code performs rounds its exact result to the nearest
      double, ties to even, and overflows to an infinity ([to_double]).
      The sign of a zero is not kept.
    - Python [int] values are [Z].
    - Python [str] values are Rocq [string]s over ASCII.
    - An exception that escapes a function is [None] in an [option].
    - The file system: the session says which directories [os.makedirs]
      can create and which files [open(path, 'w')] can open. *)

From Stdlib Require Import ZArith QArith Qround Qabs Qpower List String Ascii Bool Lia Lqa
  Permutation Sorted.
Import ListNotations.

Open Scope string_scope.

(** ** Python values *)

Inductive pyfloat : Type :=
| Fin (q : Q)
| Inf (neg : bool)
| NaN.

(** An annotation tuple [(cls_id, x_center, y_center, width, height)]. *)
Record box : Type := mkBox {
  cls_id : Z;
  x_center : pyfloat;
  y_center : pyfloat;
  width : pyfloat;
  height : pyfloat
}.

(** ** IEEE 754 binary64 arithmetic

    Rounding a rational to the nearest integer, ties to even. *)
Definition round_half_even (r : Q) : Z :=
  let f := Qfloor r in
  let d := r - inject_Z f in
  if Qle_bool (1 # 2) d then
    (if Qeq_bool d (1 # 2) then (if Z.even f then f else f + 1) else f + 1)
  else f.

(** [2 ^ e] for an integer exponent. *)
Definition pow2 (e : Z) : Q := Qpower 2 e.

(** [floor(log2 q)] for [q > 0]. *)
Definition qlog2 (q : Q) : Z :=
  let k := (Z.log2 (Qnum q) - Z.log2 (Zpos (Qden q)))%Z in
  if Qle_bool (pow2 k) q then k else (k - 1)%Z.

(** The exponent of the last mantissa bit of a double near [q]: 53-bit
    mantissas, subnormals below [2 ^ -1022]. *)
Definition fexp (q : Q) : Z := Z.max (qlog2 (Qabs q) - 52) (-1074).

(** The double nearest to [q], ties to even (exponent range unbounded
    above); [Qred] gives each value one representation. *)
Definition round64 (q : Q) : Q :=
  if Qeq_bool q 0 then 0
  else let e := fexp q in Qred (inject_Z (round_half_even (q / pow2 e)) * pow2 e).

(** The result of a float operation whose exact value is [q]: the nearest
    double, or an infinity when it is [2 ^ 1024] or more in magnitude. *)
Definition to_double (q : Q) : pyfloat :=
  let r := round64 q in
  if Qle_bool (pow2 1024) (Qabs r) then Inf (negb (Qle_bool 0 q)) else Fin r.

(** ** Characters and string helpers (Python [str] methods) *)

Definition is_space (c : ascii) : bool :=
  let n := nat_of_ascii c in
  ((9 <=? n) && (n <=? 13))%nat || ((28 <=? n) && (n <=? 32))%nat.

Definition is_digit (c : ascii) : bool :=
  let n := nat_of_ascii c in ((48 <=? n) && (n <=? 57))%nat.

Definition digit_value (c : ascii) : Z := Z.of_nat (nat_of_ascii c - 48).

Definition lower (c : ascii) : ascii :=
  let n := nat_of_ascii c in
  if ((65 <=? n) && (n <=? 90))%nat then ascii_of_nat (n + 32) else c.

Fixpoint lower_string (s : string) : string :=
  match s with
  | EmptyString => EmptyString
  | String c r => String (lower c) (lower_string r)
  end.

Fixpoint lstrip (s : string) : string :=
  match s with
  | String c r => if is_space c then lstrip r else s
  | EmptyString => EmptyString
  end.

Fixpoint rev_string (s : string) : string :=
  match s with
  | EmptyString => EmptyString
  | String c r => rev_string r ++ String c EmptyString
  end.

(** [str.strip()] *)
Definition strip (s : string) : string :=
  rev_string (lstrip (rev_string (lstrip s))).

(** [str.split()] with no separator: maximal runs of non-whitespace. *)
Fixpoint split_aux (s : string) (cur : string) : list string :=
  match s with
  | EmptyString => if String.eqb cur "" then [] else [cur]
  | String c r =>
      if is_space c then
        (if String.eqb cur "" then split_aux r "" else cur :: split_aux r "")
      else split_aux r (cur ++ String c EmptyString)
  end.

Definition split (s : string) : list string := split_aux s "".

(** Iterating over a text file ([for line in f]) with universal newlines:
    the line terminators are ["\n"], ["\r"] and ["\r\n"].  Splitting at every
    ["\n"] or ["\r"] yields the same lines, up to extra empty lines for
    ["\r\n"]; every line is stripped and empty lines are skipped by all
    callers, so this is the same as far as the callers can tell. *)
Fixpoint lines_aux (s : string) (cur : string) : list string :=
  match s with
  | EmptyString => if String.eqb cur "" then [] else [cur]
  | String c r =>
      if ((nat_of_ascii c =? 10) || (nat_of_ascii c =? 13))%nat
      then cur :: lines_aux r ""
      else lines_aux r (cur ++ String c EmptyString)
  end.

Definition file_lines (s : string) : list string := lines_aux s "".

(** ** Number parsing: Python's [int(str)] and [float(str)]

    Tokens produced by [split] carry no whitespace.  A single underscore
    between two digits is a digit-group separator (["1_000"]). *)

Fixpoint digits_aux (s : string) (acc : Z) (n : nat) : Z * nat * string :=
  match s with
  | String c r =>
      if is_digit c then digits_aux r (acc * 10 + digit_value c) (S n)
      else if Ascii.eqb c "_" && (0 <? n)%nat then
        match r with
        | String c' r' =>
            if is_digit c' then digits_aux r' (acc * 10 + digit_value c') (S n)
            else (acc, n, s)
        | EmptyString => (acc, n, s)
        end
      else (acc, n, s)
  | EmptyString => (acc, n, EmptyString)
  end.

(** A non-empty run of digits making up the whole string. *)
Definition digits_value (s : string) : option Z :=
  match digits_aux s 0 0 with
  | (v, S _, EmptyString) => Some v
  | _ => None
  end.

Definition py_int (t : string) : option Z :=
  match t with
  | String "-" r => option_map Z.opp (digits_value r)
  | String "+" r => digits_value r
  | _ => digits_value t
  end.

Definition py_exponent (s : string) : option Z :=
  match s with
  | EmptyString => Some 0%Z
  | String c r =>
      if (Ascii.eqb c "e" || Ascii.eqb c "E") then py_int r else None
  end.

(** [m * 10^e] as an exact rational. *)
Definition scale10 (m : Z) (e : Z) : Q :=
  if (0 <=? e)%Z then inject_Z (m * 10 ^ e) else Qmake m (Z.to_pos (10 ^ (- e))).

Definition py_decimal (s : string) : option Q :=
  let '(ip, ni, r1) := digits_aux s 0 0 in
  let '(m, nf, r2) :=
    match r1 with
    | String "." r => digits_aux r ip 0
    | _ => (ip, 0%nat, r1)
    end in
  if (ni + nf =? 0)%nat then None
  else match py_exponent r2 with
       | Some e => Some (scale10 m (e - Z.of_nat nf))
       | None => None
       end.

(** [float()] of an unsigned token: the special names, or the decimal
    value rounded to the nearest double ([inf] beyond the double range). *)
Definition py_unsigned_float (t : string) : option pyfloat :=
  let l := lower_string t in
  if String.eqb l "inf" || String.eqb l "infinity" then Some (Inf false)
  else if String.eqb l "nan" then Some NaN
  else option_map to_double (py_decimal t).

Definition fneg (x : pyfloat) : pyfloat :=
  match x with
  | Fin q => Fin (- q)
  | Inf b => Inf (negb b)
  | NaN => NaN
  end.

Definition py_float (t : string) : option pyfloat :=
  match t with
  | String "-" r => option_map fneg (py_unsigned_float r)
  | String "+" r => py_unsigned_float r
  | _ => py_unsigned_float t
  end.

(** ** Decoding a label file ([load_annotations_for_current_image])

    The body of the [try] block, line by line:
<<
    for line in f:
        line = line.strip()
        if line:
            parts = line.split()
            if len(parts) == 5:
                cls_id = int(parts[0])
                x, y, w, h = map(float, parts[1:])
                self.image_viewer.annotations.append((cls_id, x, y, w, h))
>>
    A line is skipped, appends one box, or raises [ValueError]. *)
Inductive line_result : Type :=
| LSkip
| LBox (b : box)
| LRaise.

Definition decode_line (line : string) : line_result :=
  let l := strip line in
  if String.eqb l "" then LSkip
  else
    match split l with
    | [p0; p1; p2; p3; p4] =>
        match py_int p0 with
        | None => LRaise
        | Some c =>
            match py_float p1, py_float p2, py_float p3, py_float p4 with
            | Some x, Some y, Some w, Some h => LBox (mkBox c x y w h)
            | _, _, _, _ => LRaise
            end
        end
    | _ => LSkip
    end.

(** The loop over the lines; [acc] is the annotation list being appended to.
    The exception handler sits around the whole loop: a raising line ends
    the loop, keeping what was appended so far (the boolean is [true] when
    the warning "Error loading annotations" is shown). *)
Fixpoint decode_lines (ls : list string) (acc : list box) : list box * bool :=
  match ls with
  | [] => (acc, false)
  | l :: rest =>
      match decode_line l with
      | LSkip => decode_lines rest acc
      | LBox b => decode_lines rest (acc ++ [b])
      | LRaise => (acc, true)
      end
  end.

(** The list is cleared first, then filled from the file's text. *)
Definition decode (text : string) : list box * bool :=
  decode_lines (file_lines text) [].

(** ** Number formatting: [str(int)] and the format spec [:.6f] *)

Definition nl : string := String (ascii_of_nat 10) EmptyString.

Definition digit_char (d : Z) : ascii := ascii_of_nat (48 + Z.to_nat d).

(** Decimal digits of [n >= 0]; [fuel] bounds the number of digits (the
    bit length of [n] is always enough). *)
Fixpoint nat_digits (fuel : nat) (n : Z) : string :=
  match fuel with
  | O => String (digit_char (n mod 10)) EmptyString
  | S f =>
      if (n <? 10)%Z then String (digit_char n) EmptyString
      else nat_digits f (n / 10) ++ String (digit_char (n mod 10)) EmptyString
  end.

Definition nat_str (n : Z) : string := nat_digits (Z.to_nat (Z.log2 n) + 1) n.

(** [str(n)] / [f"{n}"] for a Python [int]. *)
Definition int_str (n : Z) : string :=
  if (n <? 0)%Z then "-" ++ nat_str (- n) else nat_str n.

(** The [k] last decimal digits of [n >= 0], zero padded. *)
Fixpoint fixed_digits (k : nat) (n : Z) : string :=
  match k with
  | O => EmptyString
  | S k' => fixed_digits k' (n / 10) ++ String (digit_char (n mod 10)) EmptyString
  end.

(** [f"{x:.6f}"]: the sign of [x], then [|x|] rounded to six decimals;
    non-finite values print as ["inf"], ["-inf"] and ["nan"]. *)
Definition fmt6 (x : pyfloat) : string :=
  match x with
  | Fin q =>
      let neg := negb (Qle_bool 0 q) in
      let a := if neg then - q else q in
      let n := round_half_even (a * inject_Z (10 ^ 6)) in
      (if neg then "-" else "") ++ nat_str (n / 10 ^ 6) ++ "."
        ++ fixed_digits 6 (n mod 10 ^ 6)
  | Inf false => "inf"
  | Inf true => "-inf"
  | NaN => "nan"
  end.

(** ** Encoding ([save_current_annotations])
<<
    for cls_id, x, y, w, h in self.image_viewer.annotations:
        f.write(f"{cls_id} {x:.6f} {y:.6f} {w:.6f} {h:.6f}\n")
>> *)
Definition encode_line (b : box) : string :=
  int_str (cls_id b) ++ " " ++ fmt6 (x_center b) ++ " " ++ fmt6 (y_center b)
    ++ " " ++ fmt6 (width b) ++ " " ++ fmt6 (height b) ++ nl.

Fixpoint encode (anns : list box) : string :=
  match anns with
  | [] => EmptyString
  | b :: rest => encode_line b ++ encode rest
  end.

(** ** Float arithmetic of the code

    [a + b] on two floats. *)
Definition fadd (a b : pyfloat) : pyfloat :=
  match a, b with
  | Fin p, Fin q => to_double (p + q)
  | Fin _, Inf s | Inf s, Fin _ => Inf s
  | Inf s, Inf t => if Bool.eqb s t then Inf s else NaN
  | _, _ => NaN
  end.

Definition fsub (a b : pyfloat) : pyfloat := fadd a (fneg b).

(** [x / 2] *)
Definition fhalf (a : pyfloat) : pyfloat :=
  match a with
  | Fin q => to_double (q / 2)
  | other => other
  end.

(** [x * n] for a Python [int] [n]: [n] is converted to the nearest double
    first ([n] is an image side here, far below the [2 ^ 1024] at which
    that conversion raises). *)
Definition fmulZ (a : pyfloat) (n : Z) : pyfloat :=
  match a with
  | Fin q => to_double (q * round64 (inject_Z n))
  | Inf s => if (n =? 0)%Z then NaN else Inf (xorb s (n <? 0)%Z)
  | NaN => NaN
  end.

(** [x / n] for a Python [int] [n], converted to a double first.  [n] is an
    image side, never 0 ([ZeroDivisionError] is not modelled). *)
Definition fdivZ (a : pyfloat) (n : Z) : pyfloat :=
  match a with
  | Fin q => to_double (q / round64 (inject_Z n))
  | Inf s => Inf (xorb s (n <? 0)%Z)
  | NaN => NaN
  end.

(** [a / b] for two Python [int]s: the exact quotient rounded once.  [b] is
    2 or an image side, never 0. *)
Definition int_truediv (a b : Z) : pyfloat := to_double (inject_Z a / inject_Z b).

(** [int(x)]: truncation toward zero. *)
Definition qtrunc (q : Q) : Z := if Qle_bool 0 q then Qfloor q else (- Qfloor (- q))%Z.

(** [int(x)] on a float; [OverflowError] on an infinity and [ValueError]
    on [nan]. *)
Definition py_trunc (a : pyfloat) : option Z :=
  match a with
  | Fin q => Some (qtrunc q)
  | _ => None
  end.

(** [x1 = int((x_center - width/2) * w)] and so on; [w], [h] are the image
    dimensions.  The result is [(x1, y1, x2, y2)]. *)
Definition denorm (b : box) (w h : Z) : option (Z * Z * Z * Z) :=
  match py_trunc (fmulZ (fsub (x_center b) (fhalf (width b))) w),
        py_trunc (fmulZ (fsub (y_center b) (fhalf (height b))) h),
        py_trunc (fmulZ (fadd (x_center b) (fhalf (width b))) w),
        py_trunc (fmulZ (fadd (y_center b) (fhalf (height b))) h) with
  | Some x1, Some y1, Some x2, Some y2 => Some (x1, y1, x2, y2)
  | _, _, _, _ => None
  end.

(** ** Display ([update_display] and [update_annotations_display])

    [update_display] draws, for each tuple with [cls_id < len(class_names)],
    its rectangle and class label; the other tuples are skipped.  The
    drawing itself is not modelled: the result is the list of
    [(cls_id, rectangle)] drawn, or [None] when [int()] raises. *)
Fixpoint drawn_boxes (nclasses : Z) (w h : Z) (anns : list box)
  : option (list (Z * (Z * Z * Z * Z))) :=
  match anns with
  | [] => Some []
  | b :: rest =>
      if (cls_id b <? nclasses)%Z then
        match denorm b w h, drawn_boxes nclasses w h rest with
        | Some r, Some d => Some ((cls_id b, r) :: d)
        | _, _ => None
        end
      else drawn_boxes nclasses w h rest
  end.

(** [update_annotations_display]: the list widget gets one item
    [(i+1, cls_id)] per tuple with [cls_id < len(self.classes)]; the count
    label shows [len(annotations)]. *)
Fixpoint listed_items (nclasses : Z) (i : Z) (anns : list box) : list (Z * Z) :=
  match anns with
  | [] => []
  | b :: rest =>
      if (cls_id b <? nclasses)%Z then (i + 1, cls_id b)%Z :: listed_items nclasses (i + 1) rest
      else listed_items nclasses (i + 1) rest
  end.

Definition annotations_count_label (anns : list box) : Z := Z.of_nat (List.length anns).

(** ** Hit-testing ([delete_annotation_at] and [cycle_class_at])
<<
    for i, (cls_id, x_center, y_center, width, height) in enumerate(self.annotations):
        x1 = int((x_center - width/2) * w)  ...
        if x1 <= x <= x2 and y1 <= y <= y2:
            ...
            break
>>
    [Some (Some i)]: the loop stops at index [i]; [Some None]: no tuple
    contains the point; [None]: [int()] raised. *)
Definition inside (r : Z * Z * Z * Z) (x y : Z) : bool :=
  let '(x1, y1, x2, y2) := r in
  ((x1 <=? x) && (x <=? x2) && (y1 <=? y) && (y <=? y2))%Z.

Fixpoint find_hit (w h x y : Z) (anns : list box) (i : nat) : option (option nat) :=
  match anns with
  | [] => Some None
  | b :: rest =>
      match denorm b w h with
      | None => None
      | Some r => if inside r x y then Some (Some i) else find_hit w h x y rest (S i)
      end
  end.

(** [del lst[i]] for a valid index. *)
Fixpoint remove_nth {A} (i : nat) (l : list A) : list A :=
  match l, i with
  | [], _ => []
  | _ :: rest, O => rest
  | a :: rest, S i' => a :: remove_nth i' rest
  end.

(** [lst[i] = v] for a valid index. *)
Fixpoint replace_nth {A} (i : nat) (v : A) (l : list A) : list A :=
  match l, i with
  | [], _ => []
  | _ :: rest, O => v :: rest
  | a :: rest, S i' => a :: replace_nth i' v rest
  end.

(** [self.image] is [None] or an image of shape [(h, w)]. *)
Definition image := option (Z * Z).

Definition delete_annotation_at (img : image) (x y : Z) (anns : list box)
  : option (list box) :=
  match img with
  | None => Some anns
  | Some (h, w) =>
      match find_hit w h x y anns 0 with
      | None => None
      | Some None => Some anns
      | Some (Some i) => Some (remove_nth i anns)
      end
  end.

(** [nclasses] is [len(self.class_names)]. *)
Definition cycle_class_at (img : image) (nclasses : Z) (x y : Z) (anns : list box)
  : option (list box) :=
  match img with
  | None => Some anns
  | Some (h, w) =>
      if (nclasses =? 0)%Z then Some anns
      else
        match find_hit w h x y anns 0 with
        | None => None
        | Some None => Some anns
        | Some (Some i) =>
            match nth_error anns i with
            | Some b =>
                Some (replace_nth i
                        (mkBox ((cls_id b + 1) mod nclasses) (x_center b) (y_center b)
                               (width b) (height b)) anns)
            | None => Some anns
            end
        end
  end.

(** ** Creating a box ([add_annotation])

    [start] and [end_] are [self.start_point] and [self.end_point]; the
    fields are computed in floats, as the code does:
<<
    x_center = ((x1 + x2) / 2) / w
    y_center = ((y1 + y2) / 2) / h
    width = abs(x2 - x1) / w
    height = abs(y2 - y1) / h
>> *)
Definition add_annotation (img : image) (start end_ : option (Z * Z))
    (min_box_size current_class : Z) (anns : list box) : list box :=
  match start, end_, img with
  | Some (x1, y1), Some (x2, y2), Some (h, w) =>
      if (Z.abs (x2 - x1) <? min_box_size)%Z || (Z.abs (y2 - y1) <? min_box_size)%Z
      then anns
      else
        let xc := fdivZ (int_truediv (x1 + x2) 2) w in
        let yc := fdivZ (int_truediv (y1 + y2) 2) h in
        let bw := int_truediv (Z.abs (x2 - x1)) w in
        let bh := int_truediv (Z.abs (y2 - y1)) h in
        anns ++ [mkBox current_class xc yc bw bh]
  | _, _, _ => anns
  end.

(** ** Pointer coordinates ([widget_to_image_coords])

    [scale_factor] is a finite double ([Q] here), [offset_x], [offset_y]
    are ints; [(x - offset_x) / scale_factor] converts the int to a double
    and divides, and [int()] truncates toward zero, raising on an
    infinity. *)

Definition widget_to_image_coords (img : image) (scale_factor : Q) (offset_x offset_y : Z)
    (x y : Z) : option (Z * Z) :=
  match img with
  | None => None
  | Some (h, w) =>
      if Qeq_bool scale_factor 0 then None
      else
        match py_trunc (to_double (round64 (inject_Z (x - offset_x)) / scale_factor)),
              py_trunc (to_double (round64 (inject_Z (y - offset_y)) / scale_factor)) with
        | Some img_x, Some img_y =>
            Some (Z.max 0 (Z.min img_x (w - 1)), Z.max 0 (Z.min img_y (h - 1)))
        | _, _ => None
        end
  end.

(** ** Paths ([os.path.splitext], [os.path.join], POSIX) *)

(** Split at the last ['.']: [(before, after)]. *)
Fixpoint split_last_dot (s : string) : option (string * string) :=
  match s with
  | EmptyString => None
  | String c r =>
      match split_last_dot r with
      | Some (a, b) => Some (String c a, b)
      | None => if Ascii.eqb c "." then Some (EmptyString, r) else None
      end
  end.

Fixpoint all_dots (s : string) : bool :=
  match s with
  | EmptyString => true
  | String c r => Ascii.eqb c "." && all_dots r
  end.

(** [os.path.splitext(name)[0]] for a name without separators: leading
    dots do not start an extension. *)
Definition splitext_root (name : string) : string :=
  match split_last_dot name with
  | Some (a, _) => if all_dots a then name else a
  | None => name
  end.

Definition ends_with_slash (s : string) : bool :=
  match rev_string s with
  | String c _ => Ascii.eqb c "/"
  | EmptyString => false
  end.

Definition path_join (a b : string) : string :=
  match b with
  | String "/" _ => b
  | _ => if String.eqb a "" || ends_with_slash a then a ++ b else a ++ "/" ++ b
  end.

(** ** The session ([YOLOAnnotationTool])

    The fields mirror the attributes the navigation code reads and writes.
    [disk] is the content of the files; [readable] says what [cv2.imread]
    returns for a path (the image shape or [None]); [makedirs_ok] says
    whether [os.makedirs(path, exist_ok=True)] returns (the directory
    exists or can be created) rather than raising; [writable] says whether
    [open(path, 'w')] succeeds (a write after a successful open is taken to
    succeed).  These three are the environment and never change.  [log] records,
    in order, the effects that matter for the save-then-switch order:
    a label file written, [current_image_index] assigned, and the annotation
    list cleared and refilled from a label file. *)
Inductive event : Type :=
| EWrite (path text : string)
| ESetIndex (i : Z)
| EPopulate (path : string).

Record session : Type := mkSession {
  images_folder : string;
  output_folder : string;
  image_files : list string;
  current_image_index : Z;
  classes : list string;
  class_names : list string;
  viewer_image : image;
  annotations : list box;
  disk : string -> option string;
  readable : string -> image;
  makedirs_ok : string -> bool;
  writable : string -> bool;
  log : list event
}.

Definition with_write (s : session) (p t : string) : session :=
  {| images_folder := images_folder s; output_folder := output_folder s;
     image_files := image_files s; current_image_index := current_image_index s;
     classes := classes s; class_names := class_names s;
     viewer_image := viewer_image s; annotations := annotations s;
     disk := fun q => if String.eqb q p then Some t else disk s q;
     readable := readable s; makedirs_ok := makedirs_ok s;
     writable := writable s; log := log s ++ [EWrite p t] |}.

Definition with_index (s : session) (i : Z) : session :=
  {| images_folder := images_folder s; output_folder := output_folder s;
     image_files := image_files s; current_image_index := i;
     classes := classes s; class_names := class_names s;
     viewer_image := viewer_image s; annotations := annotations s;
     disk := disk s; readable := readable s; makedirs_ok := makedirs_ok s;
     writable := writable s; log := log s ++ [ESetIndex i] |}.

Definition with_annotations (s : session) (p : string) (anns : list box) : session :=
  {| images_folder := images_folder s; output_folder := output_folder s;
     image_files := image_files s; current_image_index := current_image_index s;
     classes := classes s; class_names := class_names s;
     viewer_image := viewer_image s; annotations := anns;
     disk := disk s; readable := readable s; makedirs_ok := makedirs_ok s;
     writable := writable s; log := log s ++ [EPopulate p] |}.

(** [self.image_viewer.set_image(path)] stores [cv2.imread(path)];
    [update_image_viewer] copies [self.classes] into [class_names]. *)
Definition with_image (s : session) (img : image) : session :=
  {| images_folder := images_folder s; output_folder := output_folder s;
     image_files := image_files s; current_image_index := current_image_index s;
     classes := classes s; class_names := class_names s;
     viewer_image := img; annotations := annotations s;
     disk := disk s; readable := readable s; makedirs_ok := makedirs_ok s;
     writable := writable s; log := log s |}.

Definition with_classes (s : session) (cs : list string) : session :=
  {| images_folder := images_folder s; output_folder := output_folder s;
     image_files := image_files s; current_image_index := current_image_index s;
     classes := cs; class_names := cs;
     viewer_image := viewer_image s; annotations := annotations s;
     disk := disk s; readable := readable s; makedirs_ok := makedirs_ok s;
     writable := writable s; log := log s |}.

(** Python list indexing [l[i]]: negative indices count from the end;
    [None] is [IndexError]. *)
Definition py_index {A} (l : list A) (i : Z) : option A :=
  if (0 <=? i)%Z then nth_error l (Z.to_nat i)
  else if (Z.of_nat (List.length l) + i <? 0)%Z then None
  else nth_error l (Z.to_nat (Z.of_nat (List.length l) + i)).

Definition label_path (s : session) (image_file : string) : string :=
  path_join (output_folder s) (splitext_root image_file ++ ".txt").

Definition is_empty_list {A} (l : list A) : bool :=
  match l with [] => true | _ => false end.

(** [save_current_annotations].  [os.makedirs] sits outside the [try]:
    when it raises, the exception escapes.  A failed [open] is caught and
    reported as a warning, and nothing is written. *)
Definition save_current_annotations (s : session) : option session :=
  if is_empty_list (image_files s) || String.eqb (output_folder s) "" then Some s
  else if negb (makedirs_ok s (output_folder s)) then None
  else
    match py_index (image_files s) (current_image_index s) with
    | None => None
    | Some f =>
        let p := label_path s f in
        if writable s p then Some (with_write s p (encode (annotations s))) else Some s
    end.

(** [load_annotations_for_current_image]: clear the list, then decode the
    label file if it exists. *)
Definition load_annotations_for_current_image (s : session) : option session :=
  if is_empty_list (image_files s) || String.eqb (output_folder s) "" then Some s
  else
    match py_index (image_files s) (current_image_index s) with
    | None => None
    | Some f =>
        let p := label_path s f in
        let anns := match disk s p with
                    | Some t => fst (decode t)
                    | None => []
                    end in
        Some (with_annotations s p anns)
    end.

(** [load_current_image].  The display refresh ([update_image_viewer],
    [update_annotations_display]) and the labels of the window
    ([update_ui]) are not modelled: the state below is what the code has
    assigned when it reaches them, and an exception they raise after that
    point ([int()] of an [inf] or [nan] field of a loaded box, an
    out-of-range class index in the list) is not followed. *)
Definition load_current_image (s : session) : option session :=
  if is_empty_list (image_files s)
     || (Z.of_nat (List.length (image_files s)) <=? current_image_index s)%Z
  then Some s
  else
    match py_index (image_files s) (current_image_index s) with
    | None => None
    | Some f =>
        match readable s (path_join (images_folder s) f) with
        | None => Some (with_image s None)
        | Some d =>
            match load_annotations_for_current_image (with_image s (Some d)) with
            | None => None
            | Some s' => Some (with_classes s' (classes s'))
            end
        end
    end.

Definition previous_image (s : session) : option session :=
  if is_empty_list (image_files s) then Some s
  else
    match save_current_annotations s with
    | None => None
    | Some s1 =>
        load_current_image
          (with_index s1 ((current_image_index s1 - 1)
                          mod Z.of_nat (List.length (image_files s1))))
    end.

Definition next_image (s : session) : option session :=
  if is_empty_list (image_files s) then Some s
  else
    match save_current_annotations s with
    | None => None
    | Some s1 =>
        load_current_image
          (with_index s1 ((current_image_index s1 + 1)
                          mod Z.of_nat (List.length (image_files s1))))
    end.

(** [remove_class]: [current_row] is the selected row of the class list
    widget, [-1] when none; the widget lists [self.classes], so a row is
    below [len(self.classes)].  [update_classes_display] and
    [generate_class_colors] copy the list into the viewer's [class_names]. *)
Definition remove_class (s : session) (current_row : Z) : option session :=
  if (0 <=? current_row)%Z then
    if (current_row <? Z.of_nat (List.length (classes s)))%Z
    then Some (with_classes s (remove_nth (Z.to_nat current_row) (classes s)))
    else None
  else Some s.

(** The boxes the lines append when none of them raises. *)
Definition line_boxes (ls : list string) : list box :=
  flat_map (fun l => match decode_line l with LBox b => [b] | _ => [] end) ls.

Definition raises (l : string) : Prop := decode_line l = LRaise.

(** Newlines in a text. *)
Fixpoint count_nl (s : string) : nat :=
  match s with
  | EmptyString => O
  | String c r => if (nat_of_ascii c =? 10)%nat then S (count_nl r) else count_nl r
  end.

Fixpoint all_digits (s : string) : bool :=
  match s with
  | EmptyString => true
  | String c r => is_digit c && all_digits r
  end.

(** Six-decimal fixed-point notation: an optional minus sign, at least one
    digit, a point and exactly six digits. *)
Definition fixed6_form (s : string) : Prop :=
  exists sg ip fp,
    (sg = "" \/ sg = "-") /\ ip <> "" /\ all_digits ip = true /\
    all_digits fp = true /\ String.length fp = 6%nat /\ s = sg ++ ip ++ "." ++ fp.

(** A small session over three images, for concrete runs. *)
Definition demo_session (out : string) (anns : list box) (cls : list string) (idx : Z)
  : session :=
  {| images_folder := "imgs"; output_folder := out;
     image_files := ["a.jpg"; "b.jpg"; "c.jpg"]; current_image_index := idx;
     classes := cls; class_names := cls; viewer_image := Some (100, 100)%Z;
     annotations := anns; disk := fun _ => None;
     readable := fun _ => Some (100, 100)%Z; makedirs_ok := fun _ => true;
     writable := fun _ => true; log := [] |}.

(** The tuple denormalizes without raising and does not contain the point. *)
Definition no_hit (w h x y : Z) (a : box) : Prop :=
  exists ra, denorm a w h = Some ra /\ inside ra x y = false.

(** The tuple [b] with its class advanced, as [cycle_class_at] writes it. *)
Definition next_class (n : Z) (b : box) : box :=
  mkBox ((cls_id b + 1) mod n) (x_center b) (y_center b) (width b) (height b).

(** Two overlapping boxes, inserted A then B, on a 100x100 image. *)
Definition box_A : box := mkBox 0 (Fin (1 # 2)) (Fin (1 # 2)) (Fin (1 # 2)) (Fin (1 # 2)).
Definition box_B : box := mkBox 1 (Fin (3 # 5)) (Fin (3 # 5)) (Fin (1 # 2)) (Fin (1 # 2)).

(** A session over three images with an output folder ["out"], the box
    [box_A] on screen, and a file system where [os.makedirs] succeeds iff
    [dirs_ok] and [open(path, 'w')] succeeds iff [write_ok]. *)
Definition blocked_session (dirs_ok write_ok : bool) : session :=
  {| images_folder := "imgs"; output_folder := "out";
     image_files := ["a.jpg"; "b.jpg"; "c.jpg"]; current_image_index := 0;
     classes := ["car"]; class_names := ["car"]; viewer_image := Some (100, 100)%Z;
     annotations := [box_A]; disk := fun _ => None;
     readable := fun _ => Some (100, 100)%Z; makedirs_ok := fun _ => dirs_ok;
     writable := fun _ => write_ok; log := [] |}.

(** The box [add_annotation] appends for the corners [(x1, y1)], [(x2, y2)]. *)
Definition created_box (w h x1 y1 x2 y2 c : Z) : box :=
  mkBox c (fdivZ (int_truediv (x1 + x2) 2) w) (fdivZ (int_truediv (y1 + y2) 2) h)
          (int_truediv (Z.abs (x2 - x1)) w) (int_truediv (Z.abs (y2 - y1)) h).

(** The event of refilling the annotation list from a label file. *)
Definition is_populate (e : event) : Prop :=
  match e with EPopulate _ => True | _ => False end.

(** The common body of [previous_image] ([d = -1]) and [next_image]
    ([d = 1]) for a non-empty list. *)
Definition navigate (s : session) (d : Z) : option session :=
  match save_current_annotations s with
  | None => None
  | Some s1 =>
      load_current_image
        (with_index s1 ((current_image_index s1 + d)
                        mod Z.of_nat (List.length (image_files s1))))
  end.

(** ** Reading a saved label file back

    No character of the text is whitespace for [str.split]. *)
Fixpoint no_ws (s : string) : bool :=
  match s with
  | EmptyString => true
  | String c r => negb (is_space c) && no_ws r
  end.

(** The value of a string of decimal digits, accumulated from [acc]. *)
Fixpoint digits_num (s : string) (acc : Z) : Z :=
  match s with
  | EmptyString => acc
  | String c r => digits_num r (acc * 10 + digit_value c)
  end.

(** One line written by [save_current_annotations], without its newline. *)
Definition line_body (b : box) : string :=
  int_str (cls_id b) ++ " " ++ fmt6 (x_center b) ++ " " ++ fmt6 (y_center b)
    ++ " " ++ fmt6 (width b) ++ " " ++ fmt6 (height b).

(** [y] is what [float] reads back from [f"{x:.6f}"]: for a finite value,
    within half a unit of the sixth decimal plus the rounding of the
    decimal to a double ([2 ^ -53] relative, [2 ^ -60] absolute here); the
    same value otherwise. *)
Definition close6 (x y : pyfloat) : Prop :=
  match x, y with
  | Fin p, Fin q =>
      Qabs (p - q) <= (1 # 2000000) + (Qabs p + 1) * (1 # 9007199254740992)
                      + (1 # 1152921504606846976)
  | Inf a, Inf b => a = b
  | NaN, NaN => True
  | _, _ => False
  end.

(** A finite value at most [2 ^ 39] in magnitude (far from the overflow
    of [float()]); infinities and NaN qualify. *)
Definition fin_bounded (x : pyfloat) : Prop :=
  match x with
  | Fin p => Qabs p <= 549755813888
  | _ => True
  end.

Definition box_bounded (b : box) : Prop :=
  fin_bounded (x_center b) /\ fin_bounded (y_center b) /\ fin_bounded (width b) /\
  fin_bounded (height b).

(** A saved tuple [b] and the tuple [b'] read back from its line. *)
Definition reloaded (b b' : box) : Prop :=
  cls_id b' = cls_id b /\ close6 (x_center b) (x_center b') /\
  close6 (y_center b) (y_center b') /\ close6 (width b) (width b') /\
  close6 (height b) (height b').

(** No line break (LF or CR) in the text. *)
Fixpoint no_nl (s : string) : bool :=
  match s with
  | EmptyString => true
  | String c r => negb ((nat_of_ascii c =? 10) || (nat_of_ascii c =? 13))%nat && no_nl r
  end.

(** ** Counting the boxes of an image ([get_annotations_for_image])
<<
    for line in f:
        line = line.strip()
        if line:
            parts = line.split()
            if len(parts) == 5:
                annotations.append(tuple(map(float, parts)))
    ...
    except:
        pass
>>
    A line is skipped, gives a row, or raises [ValueError]; the bare
    [except] then keeps the rows read so far. *)
Inductive row_result : Type :=
| RSkip
| RRow (r : pyfloat * pyfloat * pyfloat * pyfloat * pyfloat)
| RRaise.

Definition stats_line (line : string) : row_result :=
  let l := strip line in
  if String.eqb l "" then RSkip
  else
    match split l with
    | [p0; p1; p2; p3; p4] =>
        match py_float p0, py_float p1, py_float p2, py_float p3, py_float p4 with
        | Some c, Some x, Some y, Some w, Some h => RRow (c, x, y, w, h)
        | _, _, _, _, _ => RRaise
        end
    | _ => RSkip
    end.

Fixpoint stats_lines (ls : list string) (acc : list (pyfloat * pyfloat * pyfloat * pyfloat * pyfloat))
  : list (pyfloat * pyfloat * pyfloat * pyfloat * pyfloat) :=
  match ls with
  | [] => acc
  | l :: rest =>
      match stats_line l with
      | RSkip => stats_lines rest acc
      | RRow r => stats_lines rest (acc ++ [r])
      | RRaise => acc
      end
  end.

(** [get_annotations_for_image(index)]: [None] is an [IndexError] that
    escapes (it cannot happen for [0 <= index]). *)
Definition get_annotations_for_image (s : session) (index : Z)
  : option (list (pyfloat * pyfloat * pyfloat * pyfloat * pyfloat)) :=
  if is_empty_list (image_files s) || String.eqb (output_folder s) ""
     || (Z.of_nat (List.length (image_files s)) <=? index)%Z
  then Some []
  else
    match py_index (image_files s) index with
    | None => None
    | Some f =>
        match disk s (label_path s f) with
        | Some t => Some (stats_lines (file_lines t) [])
        | None => Some []
        end
    end.

(** ** The image list ([load_image_files])

    [str.endswith]. *)
Definition ends_with (s suffix : string) : bool :=
  (String.length suffix <=? String.length s)%nat &&
  String.eqb (substring (String.length s - String.length suffix) (String.length suffix) s) suffix.

Definition image_extensions : list string := [".jpg"; ".jpeg"; ".png"; ".bmp"; ".tiff"].

(** [any(file.lower().endswith(ext) for ext in extensions)]. *)
Definition supported (file : string) : bool :=
  existsb (fun ext => ends_with (lower_string file) ext) image_extensions.

(** [list.sort()] on strings: the order of code points, here by insertion. *)
Fixpoint insert_sorted (x : string) (l : list string) : list string :=
  match l with
  | [] => [x]
  | y :: r => if String.leb x y then x :: l else y :: insert_sorted x r
  end.

Fixpoint sort_strings (l : list string) : list string :=
  match l with
  | [] => []
  | x :: r => insert_sorted x (sort_strings r)
  end.

(** Assignments to [self.images_folder], [self.output_folder], and to
    [self.image_files] followed by [self.current_image_index = 0]. *)
Definition with_images_folder (s : session) (folder : string) : session :=
  {| images_folder := folder; output_folder := output_folder s;
     image_files := image_files s; current_image_index := current_image_index s;
     classes := classes s; class_names := class_names s;
     viewer_image := viewer_image s; annotations := annotations s;
     disk := disk s; readable := readable s; makedirs_ok := makedirs_ok s;
     writable := writable s; log := log s |}.

Definition with_output_folder (s : session) (folder : string) : session :=
  {| images_folder := images_folder s; output_folder := folder;
     image_files := image_files s; current_image_index := current_image_index s;
     classes := classes s; class_names := class_names s;
     viewer_image := viewer_image s; annotations := annotations s;
     disk := disk s; readable := readable s; makedirs_ok := makedirs_ok s;
     writable := writable s; log := log s |}.

Definition with_files (s : session) (files : list string) : session :=
  {| images_folder := images_folder s; output_folder := output_folder s;
     image_files := files; current_image_index := 0;
     classes := classes s; class_names := class_names s;
     viewer_image := viewer_image s; annotations := annotations s;
     disk := disk s; readable := readable s; makedirs_ok := makedirs_ok s;
     writable := writable s; log := log s ++ [ESetIndex 0] |}.

(** [load_image_files]; [listing] is what [os.listdir] returns.  The
    labels of the window ([update_ui]) are not modelled. *)
Definition load_image_files (s : session) (listing : list string) : option session :=
  if String.eqb (images_folder s) "" then Some s
  else
    let files := sort_strings (filter supported listing) in
    let s1 := with_files s files in
    if is_empty_list files then Some s1 else load_current_image s1.

(** ** The class registry

    [add_class]: [name] and [ok] are what [QInputDialog.getText] returns;
    [update_classes_display] and [generate_class_colors] copy the list
    into the viewer's [class_names]. *)
Definition add_class (s : session) (name : string) (ok : bool) : session :=
  if ok && negb (String.eqb (strip name) "") then
    let n := strip name in
    if existsb (String.eqb n) (classes s) then s
    else with_classes s (classes s ++ [n])
  else s.

(** The text [save_classes] writes: [cls + '\n'] for each class. *)
Definition classes_text (cs : list string) : string :=
  fold_right (fun c acc => c ++ nl ++ acc) "" cs.

(** [save_classes]; [file_path] is what the save dialog returns, [""]
    when cancelled.  A failed [open] is caught and reported as a warning,
    and nothing is written. *)
Definition save_classes (s : session) (file_path : string) : session :=
  if String.eqb file_path "" then s
  else if writable s file_path then with_write s file_path (classes_text (classes s))
  else s.

(** [load_classes_from_file]: [[line.strip() for line in f if line.strip()]];
    a missing file is caught and leaves the classes as they are. *)
Definition load_classes_from_file (s : session) (file_path : string) : session :=
  match disk s file_path with
  | Some t =>
      with_classes s (filter (fun l => negb (String.eqb l "")) (map strip (file_lines t)))
  | None => s
  end.

(** [cycle_class(direction)]: the row it selects with [setCurrentRow], or
    [None] when there is no class and nothing happens.  [current_row] is
    the selected row of the class list, [-1] when none. *)
Definition cycle_class (classes : list string) (current_row direction : Z) : option Z :=
  match classes with
  | [] => None
  | _ =>
      let row := if (current_row <? 0)%Z then 0%Z else current_row in
      Some ((row + direction) mod Z.of_nat (List.length classes))%Z
  end.

(** ** The image viewer ([ImageViewer])

    The attributes the mouse handlers read and write; [v_window_classes] is
    the window's [self.classes], read when the viewer calls
    [parent_window.update_annotations_display()], and [v_widget] is the
    widget size.  A handler returns [None] when it raises. *)
Record viewer : Type := mkViewer {
  v_image : image;
  v_annotations : list box;
  v_current_class : Z;
  v_min_box_size : Z;
  v_class_names : list string;
  v_window_classes : list string;
  v_drawing : bool;
  v_start : option (Z * Z);
  v_end : option (Z * Z);
  v_mouse_pos : Z * Z;
  v_scale_factor : Q;
  v_offset_x : Z;
  v_offset_y : Z;
  v_widget : Z * Z
}.

Definition set_annotations (v : viewer) (anns : list box) : viewer :=
  {| v_image := v_image v; v_annotations := anns; v_current_class := v_current_class v;
     v_min_box_size := v_min_box_size v; v_class_names := v_class_names v;
     v_window_classes := v_window_classes v; v_drawing := v_drawing v;
     v_start := v_start v; v_end := v_end v; v_mouse_pos := v_mouse_pos v;
     v_scale_factor := v_scale_factor v; v_offset_x := v_offset_x v;
     v_offset_y := v_offset_y v; v_widget := v_widget v |}.

Definition set_drawing (v : viewer) (drawing : bool) (start end_ : option (Z * Z)) : viewer :=
  {| v_image := v_image v; v_annotations := v_annotations v;
     v_current_class := v_current_class v;
     v_min_box_size := v_min_box_size v; v_class_names := v_class_names v;
     v_window_classes := v_window_classes v; v_drawing := drawing;
     v_start := start; v_end := end_; v_mouse_pos := v_mouse_pos v;
     v_scale_factor := v_scale_factor v; v_offset_x := v_offset_x v;
     v_offset_y := v_offset_y v; v_widget := v_widget v |}.

Definition set_pointer (v : viewer) (pos : Z * Z) (end_ : option (Z * Z)) : viewer :=
  {| v_image := v_image v; v_annotations := v_annotations v;
     v_current_class := v_current_class v;
     v_min_box_size := v_min_box_size v; v_class_names := v_class_names v;
     v_window_classes := v_window_classes v; v_drawing := v_drawing v;
     v_start := v_start v; v_end := end_; v_mouse_pos := pos;
     v_scale_factor := v_scale_factor v; v_offset_x := v_offset_x v;
     v_offset_y := v_offset_y v; v_widget := v_widget v |}.

Definition set_layout (v : viewer) (sf : Q) (ox oy : Z) : viewer :=
  {| v_image := v_image v; v_annotations := v_annotations v;
     v_current_class := v_current_class v;
     v_min_box_size := v_min_box_size v; v_class_names := v_class_names v;
     v_window_classes := v_window_classes v; v_drawing := v_drawing v;
     v_start := v_start v; v_end := v_end v; v_mouse_pos := v_mouse_pos v;
     v_scale_factor := sf; v_offset_x := ox; v_offset_y := oy; v_widget := v_widget v |}.

(** [update_display] draws an existing box without raising: [int()] of
    its corners succeeds and [self.class_names[cls_id]] is in range. *)
Definition draw_ok (nclasses w h : Z) (b : box) : bool :=
  if (cls_id b <? nclasses)%Z then
    match denorm b w h with
    | Some _ => (- nclasses <=? cls_id b)%Z
    | None => false
    end
  else true.

(** The box being drawn looks up [self.class_names[self.current_class]]
    without raising. *)
Definition drawing_box_ok (v : viewer) : bool :=
  let n := Z.of_nat (List.length (v_class_names v)) in
  match v_drawing v, v_start v, v_end v with
  | true, Some _, Some _ =>
      if (v_current_class v <? n)%Z then (- n <=? v_current_class v)%Z else true
  | _, _, _ => true
  end.

(** [update_display] for a loaded image: the drawing checks, then the
    scale factor [min(ww / w, wh / h)] and the offsets that centre the
    scaled image in the widget. *)
Definition update_display (v : viewer) : option viewer :=
  match v_image v with
  | None => Some v
  | Some (h, w) =>
      let n := Z.of_nat (List.length (v_class_names v)) in
      if negb (forallb (draw_ok n w h) (v_annotations v) && drawing_box_ok v) then None
      else if (w =? 0)%Z || (h =? 0)%Z then None
      else
        let '(ww, wh) := v_widget v in
        let sx := inject_Z ww / inject_Z w in
        let sy := inject_Z wh / inject_Z h in
        let sf := if Qle_bool sx sy then sx else sy in
        let scaled_w := qtrunc (inject_Z w * sf) in
        let scaled_h := qtrunc (inject_Z h * sf) in
        Some (set_layout v sf ((ww - scaled_w) / 2) ((wh - scaled_h) / 2))
  end.

(** [update_annotations_display] of the window lists a box without
    raising on [self.classes[cls_id]]. *)
Definition list_ok (classes : list string) (b : box) : bool :=
  let n := Z.of_nat (List.length classes) in
  if (cls_id b <? n)%Z then (- n <=? cls_id b)%Z else true.

(** [self.update_display()] then
    [self.parent_window.update_annotations_display()]. *)
Definition refresh (v : viewer) : option viewer :=
  match update_display v with
  | None => None
  | Some v' => if forallb (list_ok (v_window_classes v')) (v_annotations v') then Some v' else None
  end.

(** [event.button()]. *)
Inductive button : Type := LeftButton | RightButton | MiddleButton | OtherButton.

(** [cycle_class_at(x, y)]. *)
Definition cycle_step (v : viewer) (x y : Z) : option viewer :=
  match v_image v with
  | None => Some v
  | Some (h, w) =>
      let n := Z.of_nat (List.length (v_class_names v)) in
      if (n =? 0)%Z then Some v
      else
        match find_hit w h x y (v_annotations v) 0 with
        | None => None
        | Some None => Some v
        | Some (Some i) =>
            match nth_error (v_annotations v) i with
            | Some b => refresh (set_annotations v (replace_nth i (next_class n b) (v_annotations v)))
            | None => Some v
            end
        end
  end.

(** [delete_annotation_at(x, y)]. *)
Definition delete_step (v : viewer) (x y : Z) : option viewer :=
  match v_image v with
  | None => Some v
  | Some (h, w) =>
      match find_hit w h x y (v_annotations v) 0 with
      | None => None
      | Some None => Some v
      | Some (Some i) => refresh (set_annotations v (remove_nth i (v_annotations v)))
      end
  end.

(** [self.widget_to_image_coords(event.x(), event.y())]. *)
Definition pointer (v : viewer) (x y : Z) : option (Z * Z) :=
  widget_to_image_coords (v_image v) (v_scale_factor v) (v_offset_x v) (v_offset_y v) x y.

(** [mousePressEvent]. *)
Definition mouse_press (v : viewer) (btn : button) (x y : Z) : option viewer :=
  match v_image v with
  | None => Some v
  | Some _ =>
      match pointer v x y with
      | None => Some v
      | Some (ix, iy) =>
          match btn with
          | LeftButton => Some (set_drawing v true (Some (ix, iy)) None)
          | RightButton => delete_step v ix iy
          | MiddleButton => cycle_step v ix iy
          | OtherButton => Some v
          end
      end
  end.

(** [mouseMoveEvent]. *)
Definition mouse_move (v : viewer) (x y : Z) : option viewer :=
  match v_image v with
  | None => Some v
  | Some _ =>
      match pointer v x y with
      | None => Some v
      | Some (ix, iy) =>
          let end_ := match v_drawing v, v_start v with
                      | true, Some _ => Some (ix, iy)
                      | _, _ => v_end v
                      end in
          update_display (set_pointer v (ix, iy) end_)
      end
  end.

(** [add_annotation] of the viewer: the list built by the model of
    [add_annotation] above replaces the annotations, then the display and
    the window's list are refreshed. *)
Definition add_step (v : viewer) : option viewer :=
  match v_start v, v_end v, v_image v with
  | Some (x1, y1), Some (x2, y2), Some _ =>
      if (Z.abs (x2 - x1) <? v_min_box_size v)%Z || (Z.abs (y2 - y1) <? v_min_box_size v)%Z
      then Some v
      else refresh (set_annotations v
             (add_annotation (v_image v) (v_start v) (v_end v) (v_min_box_size v)
                             (v_current_class v) (v_annotations v)))
  | _, _, _ => Some v
  end.

(** [mouseReleaseEvent]. *)
Definition mouse_release (v : viewer) (btn : button) : option viewer :=
  match btn with
  | LeftButton =>
      if v_drawing v then
        let v1 := set_drawing v false (v_start v) (v_end v) in
        let r := match v_start v, v_end v with
                 | Some _, Some _ => add_step v1
                 | _, _ => Some v1
                 end in
        match r with
        | None => None
        | Some v2 => Some (set_drawing v2 false None None)
        end
      else Some v
  | _ => Some v
  end.

(** [browse_images_folder]; [folder] is what the folder dialog returns
    ([""] when cancelled), [listing] what [os.listdir(folder)] returns, and
    [os.path.exists] is a file on [disk]. *)
Definition browse_images_folder (s : session) (folder : string) (listing : list string)
  : option session :=
  if String.eqb folder "" then Some s
  else
    match load_image_files (with_images_folder s folder) listing with
    | None => None
    | Some s1 =>
        let s2 := if String.eqb (output_folder s1) ""
                  then with_output_folder s1 (path_join folder "annotations")
                  else s1 in
        let classes_file := path_join folder "classes.txt" in
        match disk s2 classes_file with
        | Some _ => Some (load_classes_from_file s2 classes_file)
        | None => Some s2
        end
    end.

(** A viewer with no box and no class, for concrete runs. *)
Definition demo_viewer (img : image) (widget : Z * Z) (sf : Q) : viewer :=
  {| v_image := img; v_annotations := []; v_current_class := 0; v_min_box_size := 10;
     v_class_names := []; v_window_classes := []; v_drawing := false;
     v_start := None; v_end := None; v_mouse_pos := (0, 0)%Z;
     v_scale_factor := sf; v_offset_x := 0; v_offset_y := 0; v_widget := widget |}.

(** A session whose first label file has a class written as a float. *)
Definition bad_label_session : session :=
  {| images_folder := "imgs"; output_folder := "out";
     image_files := ["a.jpg"; "b.jpg"; "c.jpg"]; current_image_index := 0;
     classes := ["car"]; class_names := ["car"]; viewer_image := Some (100, 100)%Z;
     annotations := [];
     disk := fun p => if String.eqb p "out/a.txt"
                      then Some ("1.5 0.5 0.5 0.2 0.2" ++ nl ++ "0 0.5 0.5 0.2 0.2" ++ nl)
                      else None;
     readable := fun _ => Some (100, 100)%Z; makedirs_ok := fun _ => true;
     writable := fun _ => true; log := [] |}.

(** A session whose second image cannot be read. *)
Definition unreadable_b_session : session :=
  {| images_folder := "imgs"; output_folder := "out";
     image_files := ["a.jpg"; "b.jpg"; "c.jpg"]; current_image_index := 0;
     classes := ["car"]; class_names := ["car"]; viewer_image := Some (100, 100)%Z;
     annotations := [box_A]; disk := fun _ => None;
     readable := fun p => if String.eqb p "imgs/b.jpg" then None else Some (100, 100)%Z;
     makedirs_ok := fun _ => true;
     writable := fun _ => true; log := [] |}.

(** * Proofs *)

(** Evaluating the left-hand side of an equation with the virtual machine,
    so that it can be matched against a pattern with holes. *)
Ltac vm_lhs :=
  match goal with
  | |- ?l = _ =>
      let r := eval vm_compute in l in
      let E := fresh "E" in
      assert (E : l = r) by (vm_compute; reflexivity); rewrite E; clear E
  end.

(** ** Binary64 rounding *)

Lemma Qfloor_unique (q : Q) (a : Z) : inject_Z a <= q -> q < inject_Z (a + 1) -> Qfloor q = a.
Proof.
  intros H1 H2. pose proof (Qfloor_le q). pose proof (Qlt_floor q).
  assert (A1 : (a <= Qfloor q)%Z) by (apply Qfloor_resp_le in H1; rewrite Qfloor_Z in H1; exact H1).
  assert (A2 : (Qfloor q < a + 1)%Z).
  { rewrite Zlt_Qlt. apply (Qle_lt_trans _ q); assumption. }
  lia.
Qed.

Lemma round_half_even_err (r : Q) : Qabs (r - inject_Z (round_half_even r)) <= 1 # 2.
Proof.
  unfold round_half_even.
  pose proof (Qfloor_le r) as Hf1. pose proof (Qlt_floor r) as Hf2.
  set (f := Qfloor r) in *.
  rewrite inject_Z_plus in Hf2. change (inject_Z 1) with 1 in Hf2.
  destruct (Qle_bool (1 # 2) (r - inject_Z f)) eqn:E1.
  - apply Qle_bool_iff in E1.
    assert (Hup : Qabs (r - inject_Z (f + 1)) <= 1 # 2).
    { rewrite inject_Z_plus. change (inject_Z 1) with 1.
      apply Qabs_Qle_condition. split; lra. }
    destruct (Qeq_bool (r - inject_Z f) (1 # 2)) eqn:E2.
    + apply Qeq_bool_iff in E2. destruct (Z.even f); [|exact Hup].
      apply Qabs_Qle_condition. split; lra.
    + exact Hup.
  - assert (E1' : ~ (1 # 2) <= r - inject_Z f) by (intros H; apply Qle_bool_iff in H; congruence).
    apply Qnot_le_lt in E1'.
    apply Qabs_Qle_condition. split; lra.
Qed.

Lemma round_half_even_int (q : Q) (z : Z) : q == inject_Z z -> round_half_even q = z.
Proof.
  intros Hq. unfold round_half_even.
  assert (Hf : Qfloor q = z).
  { apply Qfloor_unique; rewrite Hq; [apply Qle_refl|].
    rewrite <- Zlt_Qlt. lia. }
  rewrite Hf.
  destruct (Qle_bool (1 # 2) (q - inject_Z z)) eqn:E; [|reflexivity].
  apply Qle_bool_iff in E. rewrite Hq in E. lra.
Qed.

Lemma two_nz : ~ (2 : Q) == 0.
Proof. discriminate. Qed.

Lemma pow2_pos (e : Z) : 0 < pow2 e.
Proof. apply Qpower_0_lt. reflexivity. Qed.

Lemma pow2_add (a b : Z) : pow2 (a + b) == pow2 a * pow2 b.
Proof. apply Qpower_plus. exact two_nz. Qed.

Lemma pow2_le (a b : Z) : (a <= b)%Z -> pow2 a <= pow2 b.
Proof. intros H. apply Qpower_le_compat_l; [exact H | discriminate]. Qed.

Lemma pow2_lt_inv (a b : Z) : pow2 a < pow2 b -> (a < b)%Z.
Proof. intros H. apply (Qpower_lt_compat_l_inv 2); [exact H | reflexivity]. Qed.

Lemma pow2_Z (n : Z) : (0 <= n)%Z -> pow2 n == inject_Z (2 ^ n).
Proof. intros H. unfold pow2. rewrite Zpower_Qpower by exact H. reflexivity. Qed.

Lemma pow2_opp (n : Z) : pow2 (- n) == / pow2 n.
Proof. apply Qpower_opp. Qed.

Lemma pow2_diff (a b : Z) : (0 <= a)%Z -> (0 <= b)%Z ->
  pow2 (a - b) == inject_Z (2 ^ a) / inject_Z (2 ^ b).
Proof.
  intros Ha Hb. unfold Z.sub. rewrite pow2_add, pow2_opp, pow2_Z, pow2_Z by assumption.
  reflexivity.
Qed.

Lemma frac_le (a c : Z) (b d : positive) :
  inject_Z a / inject_Z (Zpos b) <= inject_Z c / inject_Z (Zpos d) <-> (a * Zpos d <= c * Zpos b)%Z.
Proof. rewrite <- !Qmake_Qdiv. unfold Qle. simpl. reflexivity. Qed.

Lemma frac_lt (a c : Z) (b d : positive) :
  inject_Z a / inject_Z (Zpos b) < inject_Z c / inject_Z (Zpos d) <-> (a * Zpos d < c * Zpos b)%Z.
Proof. rewrite <- !Qmake_Qdiv. unfold Qlt. simpl. reflexivity. Qed.

Lemma pow_pos_eq (n : Z) : (0 <= n)%Z -> exists p, (2 ^ n)%Z = Zpos p.
Proof.
  intros H. assert (0 < 2 ^ n)%Z by (apply Z.pow_pos_nonneg; lia).
  destruct (2 ^ n)%Z eqn:E; try lia. eauto.
Qed.

Lemma qlog2_spec (q : Q) : 0 < q -> pow2 (qlog2 q) <= q /\ q < pow2 (qlog2 q + 1).
Proof.
  intros Hq. destruct q as [n d].
  assert (Hn : (0 < n)%Z).
  { unfold Qlt in Hq. simpl in Hq. lia. }
  unfold qlog2. cbn [Qnum Qden].
  set (a := Z.log2 n). set (b := Z.log2 (Zpos d)).
  destruct (Z.log2_spec n Hn) as [Ha1 Ha2]. fold a in Ha1, Ha2.
  destruct (Z.log2_spec (Zpos d) eq_refl) as [Hb1 Hb2]. fold b in Hb1, Hb2.
  assert (Ha0 : (0 <= a)%Z) by apply Z.log2_nonneg.
  assert (Hb0 : (0 <= b)%Z) by apply Z.log2_nonneg.
  destruct (pow_pos_eq a Ha0) as [pa Epa]. destruct (pow_pos_eq b Hb0) as [pb Epb].
  destruct (pow_pos_eq (a + 1) ltac:(lia)) as [pa1 Epa1].
  destruct (pow_pos_eq (b + 1) ltac:(lia)) as [pb1 Epb1].
  assert (E2a : (2 ^ (a + 1) = 2 * 2 ^ a)%Z) by (rewrite Z.pow_add_r by lia; lia).
  assert (E2b : (2 ^ (b + 1) = 2 * 2 ^ b)%Z) by (rewrite Z.pow_add_r by lia; lia).
  destruct (Qle_bool (pow2 (a - b)) (n # d)) eqn:E.
  - apply Qle_bool_iff in E. split; [exact E|].
    replace (a - b + 1)%Z with ((a + 1) - b)%Z by ring.
    rewrite pow2_diff by lia. rewrite Epa1, Epb, <- Qmake_Qdiv.
    unfold Qlt; cbn [Qnum Qden]. rewrite <- Epa1, <- Epb. nia.
  - split.
    + replace (a - b - 1)%Z with (a - (b + 1))%Z by ring.
      rewrite pow2_diff by lia. rewrite Epa, Epb1, <- Qmake_Qdiv.
      unfold Qle; cbn [Qnum Qden]. rewrite <- Epa, <- Epb1. nia.
    + replace (a - b - 1 + 1)%Z with (a - b)%Z by ring.
      apply Qnot_le_lt. intros H. apply Qle_bool_iff in H. congruence.
Qed.

Lemma pow2_half (e : Z) : pow2 e * (1 # 2) == pow2 (e - 1).
Proof.
  unfold Z.sub. rewrite pow2_add. change (pow2 (-1)) with (1 # 2). reflexivity.
Qed.

Lemma fexp_cases (q : Q) :
  (fexp q = qlog2 (Qabs q) - 52 /\ -1074 <= qlog2 (Qabs q) - 52)%Z \/
  (fexp q = -1074 /\ qlog2 (Qabs q) - 52 < -1074)%Z.
Proof. unfold fexp. lia. Qed.

Lemma Qabs_nz_pos (q : Q) : ~ q == 0 -> 0 < Qabs q.
Proof.
  intros H. apply Qabs_case; intros H'.
  - apply Qle_lteq in H' as [H'|H']; [exact H'|]. exfalso; apply H; symmetry; exact H'.
  - destruct (Qlt_le_dec q 0) as [Hl|Hl]; [lra|].
    exfalso; apply H; lra.
Qed.

Lemma round64_err (q : Q) : Qabs (round64 q - q) <= Qabs q * pow2 (-53) + pow2 (-1075).
Proof.
  pose proof (pow2_pos (-53)) as P53. pose proof (pow2_pos (-1075)) as P1075.
  assert (Hq0 : 0 <= Qabs q) by apply Qabs_nonneg.
  unfold round64. destruct (Qeq_bool q 0) eqn:E.
  - apply Qeq_bool_iff in E.
    setoid_replace (0 - q) with 0 by (rewrite E; reflexivity).
    setoid_replace (Qabs q) with 0 by (rewrite E; reflexivity).
    change (Qabs 0) with 0. rewrite Qmult_0_l. lra.
  - assert (Hnz : ~ q == 0) by (intros H; apply Qeq_bool_iff in H; congruence).
    pose proof (Qabs_nz_pos q Hnz) as Hpos.
    destruct (qlog2_spec (Qabs q) Hpos) as [Hk _].
    set (e := fexp q). set (r := round_half_even (q / pow2 e)).
    pose proof (round_half_even_err (q / pow2 e)) as Hr. fold r in Hr.
    pose proof (pow2_pos e) as Pe.
    rewrite Qred_correct.
    assert (Heq : inject_Z r * pow2 e - q == - ((q / pow2 e - inject_Z r) * pow2 e)).
    { field. intros H; rewrite H in Pe; discriminate. }
    rewrite Heq, Qabs_opp, Qabs_Qmult, (Qabs_pos (pow2 e)) by lra.
    assert (Hb : Qabs (q / pow2 e - inject_Z r) * pow2 e <= (1 # 2) * pow2 e)
      by (apply Qmult_le_compat_r; lra).
    assert (Hh : (1 # 2) * pow2 e == pow2 (e - 1)) by (rewrite Qmult_comm; apply pow2_half).
    destruct (fexp_cases q) as [[Ee _]|[Ee _]]; fold e in Ee.
    + assert (Hh2 : (1 # 2) * pow2 e == pow2 (qlog2 (Qabs q)) * pow2 (-53)).
      { rewrite Hh, <- pow2_add, Ee.
        replace (qlog2 (Qabs q) - 52 - 1)%Z with (qlog2 (Qabs q) + -53)%Z by ring.
        reflexivity. }
      assert (pow2 (qlog2 (Qabs q)) * pow2 (-53) <= Qabs q * pow2 (-53))
        by (apply Qmult_le_compat_r; lra).
      lra.
    + assert (Hh2 : (1 # 2) * pow2 e == pow2 (-1075)) by (rewrite Hh, Ee; reflexivity).
      assert (0 <= Qabs q * pow2 (-53)) by (apply Qmult_le_0_compat; lra).
      lra.
Qed.

Lemma round64_exact (m e : Z) : (Z.abs m < 2 ^ 53)%Z -> (-1074 <= e)%Z ->
  round64 (inject_Z m * pow2 e) == inject_Z m * pow2 e.
Proof.
  intros Hm He. unfold round64.
  destruct (Qeq_bool (inject_Z m * pow2 e) 0) eqn:E.
  - apply Qeq_bool_iff in E. rewrite E. reflexivity.
  - set (q := inject_Z m * pow2 e) in *.
    assert (Hnz : ~ q == 0) by (intros H; apply Qeq_bool_iff in H; congruence).
    pose proof (Qabs_nz_pos q Hnz) as Hpos.
    destruct (qlog2_spec (Qabs q) Hpos) as [Hk _].
    pose proof (pow2_pos e) as Pe.
    assert (Habs : Qabs q == inject_Z (Z.abs m) * pow2 e).
    { unfold q. rewrite Qabs_Qmult, (Qabs_pos (pow2 e)) by lra.
      reflexivity. }
    assert (Hlt : Qabs q < pow2 (53 + e)).
    { rewrite Habs, pow2_add, (pow2_Z 53) by lia. apply Qmult_lt_compat_r; [exact Pe|].
      rewrite <- Zlt_Qlt. exact Hm. }
    assert (Hk2 : (qlog2 (Qabs q) < 53 + e)%Z) by (apply pow2_lt_inv; lra).
    set (e' := fexp q).
    assert (He' : (e' <= e)%Z) by (unfold e', fexp; lia).
    assert (Hdiv : q / pow2 e' == inject_Z (m * 2 ^ (e - e'))).
    { rewrite inject_Z_mult, <- pow2_Z by lia. unfold q.
      replace e with ((e - e') + e')%Z at 1 by ring. rewrite pow2_add.
      field. pose proof (pow2_pos e') as P'. intros Z0; rewrite Z0 in P'; discriminate. }
    rewrite (round_half_even_int _ _ Hdiv), Qred_correct.
    rewrite inject_Z_mult, <- pow2_Z by lia. unfold q.
    rewrite <- Qmult_assoc, <- pow2_add. replace (e - e' + e')%Z with e by ring.
    reflexivity.
Qed.

Lemma Qle_bool_proper (a b c d : Q) : a == b -> c == d -> Qle_bool a c = Qle_bool b d.
Proof.
  intros H1 H2. destruct (Qle_bool a c) eqn:E, (Qle_bool b d) eqn:F; try reflexivity.
  - apply Qle_bool_iff in E. rewrite H1, H2 in E. apply Qle_bool_iff in E. congruence.
  - apply Qle_bool_iff in F. rewrite <- H1, <- H2 in F. apply Qle_bool_iff in F. congruence.
Qed.

Lemma Qeq_bool_proper (a b c d : Q) : a == b -> c == d -> Qeq_bool a c = Qeq_bool b d.
Proof.
  intros H1 H2. destruct (Qeq_bool a c) eqn:E, (Qeq_bool b d) eqn:F; try reflexivity.
  - apply Qeq_bool_iff in E. rewrite H1, H2 in E. apply Qeq_bool_iff in E. congruence.
  - apply Qeq_bool_iff in F. rewrite <- H1, <- H2 in F. apply Qeq_bool_iff in F. congruence.
Qed.

Lemma qlog2_proper (x y : Q) : 0 < x -> x == y -> qlog2 x = qlog2 y.
Proof.
  intros Hx E. assert (Hy : 0 < y) by (rewrite <- E; exact Hx).
  destruct (qlog2_spec x Hx) as [A1 A2], (qlog2_spec y Hy) as [B1 B2].
  assert (A1' : pow2 (qlog2 x) <= y) by (rewrite <- E; exact A1).
  assert (A2' : y < pow2 (qlog2 x + 1)) by (rewrite <- E; exact A2).
  assert (qlog2 x < qlog2 y + 1)%Z by (apply pow2_lt_inv; apply Qle_lt_trans with y; assumption).
  assert (qlog2 y < qlog2 x + 1)%Z by (apply pow2_lt_inv; apply Qle_lt_trans with y; assumption).
  lia.
Qed.

Lemma round_half_even_proper (r s : Q) : r == s -> round_half_even r = round_half_even s.
Proof.
  intros E. unfold round_half_even. rewrite (Qfloor_comp r s E).
  rewrite (Qle_bool_proper (1 # 2) (1 # 2) (r - inject_Z (Qfloor s)) (s - inject_Z (Qfloor s)))
    by (reflexivity || (rewrite E; reflexivity)).
  rewrite (Qeq_bool_proper (r - inject_Z (Qfloor s)) (s - inject_Z (Qfloor s)) (1 # 2) (1 # 2))
    by (reflexivity || (rewrite E; reflexivity)).
  reflexivity.
Qed.

Lemma round64_proper (p q : Q) : p == q -> round64 p = round64 q.
Proof.
  intros E. unfold round64.
  rewrite (Qeq_bool_proper p q 0 0 E (Qeq_refl 0)).
  destruct (Qeq_bool q 0) eqn:Z0; [reflexivity|].
  assert (Nq : ~ q == 0) by (intros F; apply Qeq_bool_iff in F; congruence).
  assert (Hf : fexp p = fexp q).
  { unfold fexp. f_equal. f_equal. apply qlog2_proper.
    - apply Qabs_nz_pos. rewrite E. exact Nq.
    - rewrite E. reflexivity. }
  cbv zeta. rewrite Hf. apply Qred_complete.
  rewrite (round_half_even_proper (p / pow2 (fexp q)) (q / pow2 (fexp q))) by (rewrite E; reflexivity).
  reflexivity.
Qed.

Lemma to_double_proper (p q : Q) : p == q -> to_double p = to_double q.
Proof.
  intros E. unfold to_double. rewrite (round64_proper p q E).
  rewrite (Qle_bool_proper 0 0 p q (Qeq_refl 0) E). reflexivity.
Qed.

Lemma round64_int (n : Z) : (Z.abs n < 2 ^ 53)%Z -> round64 (inject_Z n) == inject_Z n.
Proof.
  intros Hn. rewrite (round64_proper (inject_Z n) (inject_Z n * pow2 0)) by (unfold pow2; simpl; ring).
  rewrite round64_exact by lia. unfold pow2; simpl; ring.
Qed.

Lemma round64_half (n : Z) : (Z.abs n < 2 ^ 53)%Z ->
  round64 (inject_Z n / inject_Z 2) == inject_Z n / 2.
Proof.
  intros Hn. rewrite (round64_proper (inject_Z n / inject_Z 2) (inject_Z n * pow2 (-1)))
    by (unfold pow2; simpl; field).
  rewrite round64_exact by lia. unfold pow2; simpl; field.
Qed.

Lemma round64_err_lit (q : Q) :
  Qabs (round64 q - q) <= Qabs q * (1 # 9007199254740992) + (1 # 1152921504606846976).
Proof.
  eapply Qle_trans; [apply round64_err|].
  assert (E : pow2 (-53) == 1 # 9007199254740992) by reflexivity.
  assert (L : pow2 (-1075) <= 1 # 1152921504606846976) by (unfold Qle; vm_compute; discriminate).
  rewrite E. pose proof (Qabs_nonneg q). lra.
Qed.

(** A float operation whose exact value is at most [M] in magnitude,
    [M <= 2 ^ 40]: no overflow, and the rounding error bound. *)
Lemma rnd (q M : Q) : - M <= q <= M -> M <= inject_Z (2 ^ 40) ->
  to_double q = Fin (round64 q) /\
  - (M * (1 # 9007199254740992) + (1 # 1152921504606846976)) <= round64 q - q
  <= M * (1 # 9007199254740992) + (1 # 1152921504606846976).
Proof.
  intros Hq HM.
  assert (Ha : Qabs q <= M) by (apply Qabs_Qle_condition; exact Hq).
  pose proof (round64_err_lit q) as Er.
  assert (Eb : Qabs (round64 q - q) <= M * (1 # 9007199254740992) + (1 # 1152921504606846976)).
  { eapply Qle_trans; [exact Er|]. apply Qplus_le_l. apply Qmult_le_compat_r; [exact Ha|].
    discriminate. }
  apply Qabs_Qle_condition in Eb. split; [|exact Eb].
  unfold to_double.
  destruct (Qle_bool (pow2 1024) (Qabs (round64 q))) eqn:F; [|reflexivity].
  exfalso. apply Qle_bool_iff in F.
  assert (Big : 2199023255552 <= pow2 1024) by (unfold Qle; vm_compute; discriminate).
  assert (T : Qabs (round64 q) <= Qabs (round64 q - q) + Qabs q).
  { setoid_replace (round64 q) with ((round64 q - q) + q) at 1 by ring. apply Qabs_triangle. }
  apply Qabs_Qle_condition in Eb.
  change (inject_Z (2 ^ 40)) with (1099511627776 # 1) in HM.
  lra.
Qed.

Lemma to_double_small (q : Q) : - 1099511627776 <= q <= 1099511627776 ->
  to_double q = Fin (round64 q).
Proof. intros Hq. apply (rnd q 1099511627776); [exact Hq | unfold Qle; simpl; lia]. Qed.

Lemma qtrunc_near (t : Q) (v : Z) : (0 <= v)%Z ->
  inject_Z v - 1 < t -> t < inject_Z v + 1 -> (v - 1 <= qtrunc t <= v)%Z.
Proof.
  intros Hv H1 H2. unfold qtrunc.
  destruct (Qle_bool 0 t) eqn:E.
  - pose proof (Qfloor_le t) as F1. pose proof (Qlt_floor t) as F2.
    rewrite inject_Z_plus in F2. change (inject_Z 1) with 1 in F2.
    assert (U : inject_Z (Qfloor t) < inject_Z (v + 1))
      by (rewrite inject_Z_plus; change (inject_Z 1) with 1; lra).
    assert (L : inject_Z (v - 1 - 1) < inject_Z (Qfloor t))
      . { unfold Z.sub; rewrite !inject_Z_plus; change (inject_Z (- (1))) with (- (1)). lra. }
    rewrite <- Zlt_Qlt in U, L. lia.
  - assert (Ht : t < 0) by (apply Qnot_le_lt; intros F; apply Qle_bool_iff in F; congruence).
    assert (V : (v < 1)%Z) by (rewrite Zlt_Qlt; change (inject_Z 1) with 1; lra).
    assert (V0 : v = 0%Z) by lia. subst v.
    rewrite (Qfloor_unique (- t) 0); [lia | |];
      change (inject_Z 0) with 0 in *; change (inject_Z (0 + 1)) with 1; lra.
Qed.

Lemma Z_range_Q (a lo hi : Z) : (lo <= a <= hi)%Z -> inject_Z lo <= inject_Z a <= inject_Z hi.
Proof. intros H. rewrite <- !Zle_Qle. exact H. Qed.

Lemma round64_zero (q : Q) : q == 0 -> round64 q = 0.
Proof.
  intros E. unfold round64. destruct (Qeq_bool q 0) eqn:F; [reflexivity|].
  apply Qeq_bool_iff in E. congruence.
Qed.

Lemma round64_in_unit (q : Q) :
  (q == 0 \/ 1 # 4294967296 <= q) -> q <= 1 - (1 # 2147483648) ->
  0 <= round64 q <= 1 /\ (1 # 4294967296 <= q -> 0 < round64 q /\ round64 q < 1).
Proof.
  intros Hl Hu. destruct Hl as [Z0 | Hp].
  - rewrite (round64_zero q Z0). split; [split; discriminate|].
    intros H. rewrite Z0 in H. exfalso. lra.
  - assert (B : - 1 <= q <= 1) by lra.
    destruct (rnd q 1 B) as [_ R]; [unfold Qle; simpl; lia|].
    assert (0 < round64 q /\ round64 q < 1) by lra.
    split; [lra | auto].
Qed.

(** ** Sample runs *)

Example decode_spec_example :
  map cls_id (fst (decode "0 0.5 0.5 0.2 0.2
GARBAGE
1 0.1 0.1 0.05 0.05
")) = [0%Z; 1%Z].
Proof. vm_compute. reflexivity. Qed.

Example decode_bad_token :
  decode "a b c d e
0 0.5 0.5 0.2 0.2
" = ([], true).
Proof. vm_compute. reflexivity. Qed.

Example encode_example :
  encode [mkBox 0 (Fin (1 # 2)) (Fin (1 # 3)) (Fin (-(1 # 20000000))) (Fin (25 # 1))]
  = "0 0.500000 0.333333 -0.000000 25.000000" ++ nl.
Proof. vm_compute. reflexivity. Qed.

(** ** Decoding *)

Lemma decode_lines_no_raise (ls : list string) (acc : list box) :
  Forall (fun l => ~ raises l) ls -> decode_lines ls acc = ((acc ++ line_boxes ls)%list, false).
Proof.
  revert acc; induction ls as [|l ls IH]; intros acc Hls; simpl.
  - rewrite app_nil_r; reflexivity.
  - inversion Hls as [|? ? Hl Hrest]; subst.
    unfold raises in Hl.
    destruct (decode_line l) as [|b|] eqn:E.
    + rewrite IH by assumption; reflexivity.
    + rewrite IH by assumption. rewrite <- app_assoc; reflexivity.
    + contradiction.
Qed.

Lemma decode_lines_skip (pre post : list string) (l : string) (acc : list box) :
  decode_line l = LSkip ->
  decode_lines (pre ++ l :: post) acc = decode_lines (pre ++ post) acc.
Proof.
  intros Hl; revert acc; induction pre as [|l' pre IH]; intros acc; simpl.
  - rewrite Hl; reflexivity.
  - destruct (decode_line l'); [apply IH | apply IH | reflexivity].
Qed.

Lemma decode_lines_raise (pre post : list string) (l : string) (acc : list box) :
  Forall (fun l => ~ raises l) pre -> raises l ->
  decode_lines (pre ++ l :: post) acc = ((acc ++ line_boxes pre)%list, true).
Proof.
  intros Hpre Hl; revert acc; induction pre as [|l' pre IH]; intros acc; simpl.
  - unfold raises in Hl; rewrite Hl, app_nil_r; reflexivity.
  - inversion Hpre as [|? ? Hl' Hrest]; subst. unfold raises in Hl'.
    destruct (decode_line l') as [|b|] eqn:E.
    + apply IH; assumption.
    + rewrite IH by assumption. rewrite <- app_assoc; reflexivity.
    + contradiction.
Qed.

(** C1 (counterexample).  A five-token line whose first token is not an
    integer raises [ValueError]; the handler around the whole loop then
    drops the well-formed line that follows it. *)
Lemma C1_bad_token_drops_later_lines :
  (exists b, decode_line "0 0.5 0.5 0.2 0.2" = LBox b) /\
  decode "a b c d e
0 0.5 0.5 0.2 0.2
" = ([], true).
Proof. split; [eexists; vm_compute; reflexivity | vm_compute; reflexivity]. Qed.

(** C1 (amended).  Empty lines and lines whose token count is not 5 are
    skipped individually and decoding goes on; when no line raises, every
    well-formed line is decoded, in order; a five-token line with a token
    that fails [int()]/[float()] ends decoding, keeping the boxes of the
    earlier lines and dropping all later ones.  The example of the spec
    decodes to classes 0 and 1. *)
Theorem C1_decode_line_by_line :
  (forall pre post l acc, decode_line l = LSkip ->
     decode_lines (pre ++ l :: post) acc = decode_lines (pre ++ post) acc) /\
  (forall ls acc, Forall (fun l => ~ raises l) ls ->
     decode_lines ls acc = ((acc ++ line_boxes ls)%list, false)) /\
  (forall pre post l acc, Forall (fun l => ~ raises l) pre -> raises l ->
     decode_lines (pre ++ l :: post) acc = ((acc ++ line_boxes pre)%list, true)) /\
  map cls_id (fst (decode "0 0.5 0.5 0.2 0.2
GARBAGE
1 0.1 0.1 0.05 0.05
")) = [0%Z; 1%Z].
Proof.
  split; [|split; [|split]].
  - intros; apply decode_lines_skip; assumption.
  - intros; apply decode_lines_no_raise; assumption.
  - intros; apply decode_lines_raise; assumption.
  - vm_compute; reflexivity.
Qed.

Lemma C1_decode_line_by_line_witness :
  decode_lines (["0 0.5 0.5 0.2 0.2"] ++ "GARBAGE" :: ["1 0.1 0.1 0.05 0.05"]) []
  = decode_lines (["0 0.5 0.5 0.2 0.2"] ++ ["1 0.1 0.1 0.05 0.05"]) [] /\
  decode_lines (["0 1 1 1 1"] ++ "x 1 1 1 1" :: ["1 1 1 1 1"]) []
  = (([] ++ line_boxes ["0 1 1 1 1"])%list, true).
Proof.
  split.
  - apply (proj1 C1_decode_line_by_line). vm_compute. reflexivity.
  - apply (proj2 (proj2 C1_decode_line_by_line)).
    + constructor; [unfold raises; vm_compute; discriminate | constructor].
    + unfold raises; vm_compute; reflexivity.
Defined.

(** ** Formatting *)

Lemma str_app_assoc (a b c : string) : (a ++ b) ++ c = a ++ b ++ c.
Proof. induction a as [|x a IH]; simpl; [reflexivity | rewrite IH; reflexivity]. Qed.

Lemma str_length_app (a b : string) :
  String.length (a ++ b) = (String.length a + String.length b)%nat.
Proof. induction a as [|x a IH]; simpl; [reflexivity | rewrite IH; reflexivity]. Qed.

Lemma all_digits_app (a b : string) : all_digits (a ++ b) = all_digits a && all_digits b.
Proof. induction a as [|x a IH]; simpl; [reflexivity | rewrite IH, andb_assoc; reflexivity]. Qed.

Lemma count_nl_app (a b : string) : count_nl (a ++ b) = (count_nl a + count_nl b)%nat.
Proof.
  induction a as [|x a IH]; simpl; [reflexivity|].
  destruct (nat_of_ascii x =? 10)%nat; rewrite IH; reflexivity.
Qed.

Lemma digit_char_digit (d : Z) : (d < 10)%Z -> is_digit (digit_char d) = true.
Proof.
  intros Hd. unfold digit_char, is_digit.
  rewrite nat_ascii_embedding by lia.
  apply andb_true_intro; split; apply Nat.leb_le; lia.
Qed.

Lemma all_digits_count_nl (s : string) : all_digits s = true -> count_nl s = O.
Proof.
  induction s as [|c s IH]; simpl; [reflexivity|].
  intros H; apply andb_prop in H as [Hc Hs].
  unfold is_digit in Hc. apply andb_prop in Hc as [H1 _]. apply Nat.leb_le in H1.
  destruct (nat_of_ascii c =? 10)%nat eqn:E; [apply Nat.eqb_eq in E; lia | auto].
Qed.

Lemma fixed_digits_ok (k : nat) (n : Z) :
  all_digits (fixed_digits k n) = true /\ String.length (fixed_digits k n) = k.
Proof.
  revert n; induction k as [|k IH]; intros n; [split; reflexivity|].
  cbn [fixed_digits].
  destruct (IH (n / 10)%Z) as [Hd Hl].
  rewrite all_digits_app, Hd, str_length_app, Hl; cbn [all_digits String.length].
  rewrite digit_char_digit by (pose proof (Z.mod_pos_bound n 10); lia).
  split; [reflexivity | lia].
Qed.

Lemma nat_digits_ok (fuel : nat) (n : Z) :
  all_digits (nat_digits fuel n) = true /\ nat_digits fuel n <> "".
Proof.
  revert n; induction fuel as [|f IH]; intros n; cbn [nat_digits].
  - cbn [all_digits].
    rewrite digit_char_digit by (pose proof (Z.mod_pos_bound n 10); lia).
    split; [reflexivity | discriminate].
  - destruct (n <? 10)%Z eqn:E.
    + apply Z.ltb_lt in E. cbn [all_digits]. rewrite digit_char_digit by exact E.
      split; [reflexivity | discriminate].
    + destruct (IH (n / 10)%Z) as [Hd Hne].
      rewrite all_digits_app, Hd; cbn [all_digits].
      rewrite digit_char_digit by (pose proof (Z.mod_pos_bound n 10); lia).
      split; [reflexivity|].
      destruct (nat_digits f (n / 10)); [contradiction | discriminate].
Qed.

Lemma nat_str_ok (n : Z) : all_digits (nat_str n) = true /\ nat_str n <> "".
Proof. apply nat_digits_ok. Qed.

Lemma fmt6_fin_form (q : Q) : fixed6_form (fmt6 (Fin q)).
Proof.
  unfold fmt6, fixed6_form.
  set (neg := negb (Qle_bool 0 q)).
  set (n := round_half_even _).
  exists (if neg then "-" else ""), (nat_str (n / 10 ^ 6)), (fixed_digits 6 (n mod 10 ^ 6)).
  destruct (nat_str_ok (n / 10 ^ 6)) as [Hd Hne].
  destruct (fixed_digits_ok 6 (n mod 10 ^ 6)) as [Fd Fl].
  repeat split; auto.
  destruct neg; auto.
Qed.

Lemma fmt6_count_nl (x : pyfloat) : count_nl (fmt6 x) = O.
Proof.
  destruct x as [q|[|]|]; try reflexivity.
  unfold fmt6. rewrite !count_nl_app.
  rewrite (all_digits_count_nl _ (proj1 (nat_str_ok _))).
  rewrite (all_digits_count_nl _ (proj1 (fixed_digits_ok _ _))).
  destruct (negb (Qle_bool 0 q)); reflexivity.
Qed.

Lemma int_str_ok (n : Z) : count_nl (int_str n) = O /\ int_str n <> "".
Proof.
  unfold int_str. destruct (n <? 0)%Z.
  - simpl. split; [apply all_digits_count_nl, nat_str_ok | discriminate].
  - split; [apply all_digits_count_nl, nat_str_ok | apply nat_str_ok].
Qed.

Lemma encode_line_shape (b : box) :
  exists body, encode_line b = body ++ nl /\ body <> "" /\ count_nl body = O.
Proof.
  unfold encode_line.
  exists (int_str (cls_id b) ++ " " ++ fmt6 (x_center b) ++ " " ++ fmt6 (y_center b)
          ++ " " ++ fmt6 (width b) ++ " " ++ fmt6 (height b)).
  destruct (int_str_ok (cls_id b)) as [Hc Hne].
  split; [rewrite !str_app_assoc; reflexivity|]. split.
  - destruct (int_str (cls_id b)); [contradiction | discriminate].
  - rewrite !count_nl_app, Hc, !fmt6_count_nl. reflexivity.
Qed.

Lemma count_nl_encode_line (b : box) : count_nl (encode_line b) = 1%nat.
Proof.
  destruct (encode_line_shape b) as (body & -> & _ & Hb).
  rewrite count_nl_app, Hb. reflexivity.
Qed.

Lemma count_nl_encode (anns : list box) : count_nl (encode anns) = List.length anns.
Proof.
  induction anns as [|b anns IH]; simpl; [reflexivity|].
  rewrite count_nl_app, count_nl_encode_line, IH. reflexivity.
Qed.

Lemma inf_not_fixed6 : ~ fixed6_form (fmt6 (Inf false)).
Proof.
  intros (sg & ip & fp & _ & _ & _ & _ & Hlen & Heq).
  apply (f_equal String.length) in Heq.
  rewrite !str_length_app in Heq. simpl in Heq. lia.
Qed.

(** C7 (counterexample).  [float("inf")] is accepted from a label file and
    [f"{x:.6f}"] then writes ["inf"], which is not six-decimal fixed point. *)
Lemma C7_inf_field_not_fixed_point :
  encode (fst (decode "0 inf 0.5 0.5 0.5"))
  = "0 inf 0.500000 0.500000 0.500000" ++ nl /\
  ~ fixed6_form (fmt6 (Inf false)).
Proof. split; [vm_compute; reflexivity | exact inf_not_fixed6]. Qed.

(** C7 (amended).  Encoding writes the boxes in list order, one line each:
    the text has exactly one newline per box, every line is a non-empty
    body followed by one newline, in the format
    ["{cls_id} {x:.6f} {y:.6f} {w:.6f} {h:.6f}\n"]; a finite float is
    written in six-decimal fixed point (never in scientific notation),
    while the non-finite values a label file can supply are written
    ["inf"], ["-inf"] and ["nan"]. *)
Theorem C7_encode_format (anns : list box) :
  encode anns = fold_right (fun b t => encode_line b ++ t) "" anns /\
  count_nl (encode anns) = List.length anns /\
  Forall (fun b =>
            encode_line b = int_str (cls_id b) ++ " " ++ fmt6 (x_center b) ++ " "
                            ++ fmt6 (y_center b) ++ " " ++ fmt6 (width b) ++ " "
                            ++ fmt6 (height b) ++ nl /\
            exists body, encode_line b = body ++ nl /\ body <> "" /\ count_nl body = O)
         anns /\
  (forall q, fixed6_form (fmt6 (Fin q))) /\
  fmt6 (Inf false) = "inf" /\ fmt6 (Inf true) = "-inf" /\ fmt6 NaN = "nan".
Proof.
  split; [|split; [apply count_nl_encode|split; [|split; [exact fmt6_fin_form|auto]]]].
  - induction anns as [|b anns IH]; simpl; [reflexivity | rewrite IH; reflexivity].
  - apply Forall_forall; intros b _. split; [reflexivity | apply encode_line_shape].
Qed.

(** ** Display and saving against the class list *)

Lemma drawn_boxes_filter (n w h : Z) (anns : list box) d :
  drawn_boxes n w h anns = Some d ->
  map fst d = map cls_id (filter (fun b => (cls_id b <? n)%Z) anns).
Proof.
  revert d; induction anns as [|b anns IH]; intros d Hd; simpl in *.
  - injection Hd as <-; reflexivity.
  - destruct (cls_id b <? n)%Z eqn:E.
    + destruct (denorm b w h); [|discriminate].
      destruct (drawn_boxes n w h anns) as [d'|] eqn:Ed; [|discriminate].
      injection Hd as <-. simpl. rewrite (IH d' eq_refl). reflexivity.
    + apply IH; exact Hd.
Qed.

Lemma filter_cls_lt (n : Z) (anns : list box) :
  Forall (fun c => (c < n)%Z) (map cls_id (filter (fun b => (cls_id b <? n)%Z) anns)).
Proof.
  induction anns as [|b anns IH]; simpl; [constructor|].
  destruct (cls_id b <? n)%Z eqn:E; simpl; [|exact IH].
  constructor; [apply Z.ltb_lt; exact E | exact IH].
Qed.

Lemma listed_items_filter (n i : Z) (anns : list box) :
  map snd (listed_items n i anns) = map cls_id (filter (fun b => (cls_id b <? n)%Z) anns).
Proof.
  revert i; induction anns as [|b anns IH]; intros i; simpl; [reflexivity|].
  destruct (cls_id b <? n)%Z; simpl; rewrite IH; reflexivity.
Qed.

Lemma save_current_annotations_effect (s s' : session) :
  save_current_annotations s = Some s' ->
  annotations s' = annotations s /\
  (log s' = log s \/
   exists p, log s' = log s ++ [EWrite p (encode (annotations s))])%list.
Proof.
  unfold save_current_annotations.
  destruct (is_empty_list (image_files s) || String.eqb (output_folder s) "").
  - intros H; injection H as <-; auto.
  - destruct (negb (makedirs_ok s (output_folder s))); [discriminate|].
    destruct (py_index (image_files s) (current_image_index s)) as [f|]; [|discriminate].
    destruct (writable s (label_path s f)); intros H; injection H as <-; [|auto].
    split; [reflexivity|]. right; eexists; reflexivity.
Qed.




(** ** Hit-testing *)

Lemma find_hit_first (w h x y : Z) (pre post : list box) (b : box) r (i : nat) :
  Forall (no_hit w h x y) pre -> denorm b w h = Some r -> inside r x y = true ->
  find_hit w h x y (pre ++ b :: post) i = Some (Some (i + List.length pre)%nat).
Proof.
  intros Hpre Hb Hin; revert i; induction Hpre as [|a pre (ra & Ha & Hout) _ IH];
    intros i; simpl.
  - rewrite Hb, Hin, Nat.add_0_r; reflexivity.
  - rewrite Ha, Hout, IH. f_equal; f_equal; lia.
Qed.

Lemma find_hit_miss (w h x y : Z) (anns : list box) (i : nat) :
  Forall (no_hit w h x y) anns -> find_hit w h x y anns i = Some None.
Proof.
  intros H; revert i; induction H as [|a anns (ra & Ha & Hout) _ IH]; intros i; simpl;
    [reflexivity | rewrite Ha, Hout; apply IH].
Qed.

Lemma find_hit_raise (w h x y : Z) (pre post : list box) (a : box) (i : nat) :
  Forall (no_hit w h x y) pre -> denorm a w h = None ->
  find_hit w h x y (pre ++ a :: post) i = None.
Proof.
  intros Hpre Ha; revert i; induction Hpre as [|a' pre (ra & Ha' & Hout) _ IH];
    intros i; simpl; [rewrite Ha; reflexivity | rewrite Ha', Hout; apply IH].
Qed.

Lemma remove_nth_middle {A} (pre post : list A) (b : A) :
  remove_nth (List.length pre) (pre ++ b :: post) = (pre ++ post)%list.
Proof. induction pre as [|a pre IH]; simpl; [reflexivity | rewrite IH; reflexivity]. Qed.

Lemma replace_nth_middle {A} (pre post : list A) (b v : A) :
  replace_nth (List.length pre) v (pre ++ b :: post) = (pre ++ v :: post)%list.
Proof. induction pre as [|a pre IH]; simpl; [reflexivity | rewrite IH; reflexivity]. Qed.

Lemma nth_error_middle {A} (pre post : list A) (b : A) :
  nth_error (pre ++ b :: post) (List.length pre) = Some b.
Proof. induction pre as [|a pre IH]; simpl; [reflexivity | exact IH]. Qed.

(** C4 (counterexample).  A tuple read from the line ["0 nan 0.5 0.5 0.5"]
    comes first; [int()] raises on it, so the box behind it that contains
    the point is not deleted.  A finite field raises too: the line
    ["0 1e308 0.5 0.5 0.5"] gives a finite [x_center], but [x_center * w]
    overflows to [inf] and [int()] raises on it. *)
Lemma C4_nan_box_blocks_hit :
  let anns := fst (decode "0 nan 0.5 0.5 0.5
0 0.5 0.5 0.5 0.5
") in
  let big := fst (decode "0 1e308 0.5 0.5 0.5
0 0.5 0.5 0.5 0.5
") in
  delete_annotation_at (Some (100, 100)%Z) 50 50 anns = None /\
  (exists b r, In b anns /\ denorm b 100 100 = Some r /\ inside r 50 50 = true) /\
  delete_annotation_at (Some (100, 100)%Z) 50 50 big = None /\
  (exists q, option_map x_center (hd_error big) = Some (Fin q)) /\
  (exists b r, In b big /\ denorm b 100 100 = Some r /\ inside r 50 50 = true).
Proof.
  cbv zeta. split; [|split; [|split; [|split]]].
  - vm_compute. reflexivity.
  - eexists _, _. split; [right; left; reflexivity|].
    split; vm_compute; reflexivity.
  - vm_compute. reflexivity.
  - vm_compute. eexists. reflexivity.
  - eexists _, _. split; [right; left; reflexivity|].
    split; vm_compute; reflexivity.
Qed.

(** C4 (amended).  The scan goes in list order.  When every tuple before [b]
    denormalizes and misses the point and [b]'s rectangle contains it, [b]
    alone is deleted, or alone has its class advanced; when every tuple
    misses, nothing changes; when denormalizing a tuple met before any hit
    raises (a field is [inf] or [nan]), the call raises and the list is
    unchanged.  For boxes A then B overlapping at the point, A is the one
    affected. *)
Theorem C4_hit_test_first_match :
  (forall w h x y pre b post r,
     Forall (no_hit w h x y) pre -> denorm b w h = Some r -> inside r x y = true ->
     delete_annotation_at (Some (h, w)) x y (pre ++ b :: post) = Some (pre ++ post)%list /\
     (forall n, n <> 0%Z ->
        cycle_class_at (Some (h, w)) n x y (pre ++ b :: post)
        = Some (pre ++ next_class n b :: post)%list)) /\
  (forall w h x y anns, Forall (no_hit w h x y) anns ->
     delete_annotation_at (Some (h, w)) x y anns = Some anns /\
     (forall n, cycle_class_at (Some (h, w)) n x y anns = Some anns)) /\
  (forall w h x y pre a post, Forall (no_hit w h x y) pre -> denorm a w h = None ->
     delete_annotation_at (Some (h, w)) x y (pre ++ a :: post) = None /\
     (forall n, n <> 0%Z -> cycle_class_at (Some (h, w)) n x y (pre ++ a :: post) = None)) /\
  (delete_annotation_at (Some (100, 100)%Z) 50 50 [box_A; box_B] = Some [box_B] /\
   cycle_class_at (Some (100, 100)%Z) 2 50 50 [box_A; box_B]
   = Some [next_class 2 box_A; box_B]).
Proof.
  split; [|split; [|split]].
  - intros w h x y pre b post r Hpre Hb Hin. split.
    + unfold delete_annotation_at.
      rewrite (find_hit_first w h x y pre post b r 0 Hpre Hb Hin); simpl.
      rewrite remove_nth_middle; reflexivity.
    + intros n Hn. unfold cycle_class_at.
      apply Z.eqb_neq in Hn; rewrite Hn.
      rewrite (find_hit_first w h x y pre post b r 0 Hpre Hb Hin); simpl.
      rewrite nth_error_middle. unfold next_class. rewrite replace_nth_middle. reflexivity.
  - intros w h x y anns Hm. split.
    + unfold delete_annotation_at. rewrite find_hit_miss by exact Hm. reflexivity.
    + intros n. unfold cycle_class_at. destruct (n =? 0)%Z; [reflexivity|].
      rewrite find_hit_miss by exact Hm. reflexivity.
  - intros w h x y pre a post Hpre Ha. split.
    + unfold delete_annotation_at. rewrite find_hit_raise by assumption. reflexivity.
    + intros n Hn. unfold cycle_class_at. apply Z.eqb_neq in Hn; rewrite Hn.
      rewrite find_hit_raise by assumption. reflexivity.
  - split; vm_compute; reflexivity.
Qed.

Lemma C4_hit_test_first_match_witness :
  delete_annotation_at (Some (100, 100)%Z) 50 50 ([] ++ box_A :: [box_B])
  = Some ([] ++ [box_B])%list /\
  (forall n, n <> 0%Z ->
     cycle_class_at (Some (100, 100)%Z) n 50 50 ([] ++ box_A :: [box_B])
     = Some ([] ++ next_class n box_A :: [box_B])%list).
Proof.
  apply (proj1 C4_hit_test_first_match 100%Z 100%Z 50%Z 50%Z [] box_A [box_B] (25, 25, 75, 75)%Z).
  - constructor.
  - vm_compute. reflexivity.
  - vm_compute. reflexivity.
Defined.

(** ** Creating a box *)

Lemma add_annotation_cases (h w x1 y1 x2 y2 m c : Z) (anns : list box) :
  add_annotation (Some (h, w)) (Some (x1, y1)) (Some (x2, y2)) m c anns
  = if (Z.abs (x2 - x1) <? m)%Z || (Z.abs (y2 - y1) <? m)%Z then anns
    else (anns ++ [created_box w h x1 y1 x2 y2 c])%list.
Proof. reflexivity. Qed.

Lemma app_one_neq {A} (l : list A) (b : A) : l <> (l ++ [b])%list.
Proof.
  intros E. apply (f_equal (@List.length A)) in E.
  rewrite length_app in E. simpl in E. lia.
Qed.

(** C5.  A rectangle with a side shorter than [min_box_size] leaves the
    list as it is; otherwise exactly one box, with the normalized center
    and size computed in floating point as the code does
    ([((x1 + x2) / 2) / w], [abs(x2 - x1) / w], ...), is appended at the end.  The spec's example
    [(10,10)-(12,20)] with [min_box_size = 10] is rejected. *)
Theorem C5_add_annotation_reject_or_append (h w x1 y1 x2 y2 m c : Z) (anns : list box) :
  ((Z.abs (x2 - x1) < m \/ Z.abs (y2 - y1) < m)%Z ->
     add_annotation (Some (h, w)) (Some (x1, y1)) (Some (x2, y2)) m c anns = anns) /\
  ((m <= Z.abs (x2 - x1))%Z -> (m <= Z.abs (y2 - y1))%Z ->
     add_annotation (Some (h, w)) (Some (x1, y1)) (Some (x2, y2)) m c anns
     = (anns ++ [mkBox c (fdivZ (int_truediv (x1 + x2) 2) w) (fdivZ (int_truediv (y1 + y2) 2) h)
                       (int_truediv (Z.abs (x2 - x1)) w) (int_truediv (Z.abs (y2 - y1)) h)])%list /\
     List.length (add_annotation (Some (h, w)) (Some (x1, y1)) (Some (x2, y2)) m c anns)
     = S (List.length anns)) /\
  add_annotation (Some (h, w)) (Some (10, 10)%Z) (Some (12, 20)%Z) 10 0 anns = anns.
Proof.
  rewrite !add_annotation_cases. split; [|split].
  - intros [H|H]; apply Z.ltb_lt in H; rewrite H; [reflexivity|].
    rewrite orb_true_r; reflexivity.
  - intros Hx Hy.
    assert (Ex : (Z.abs (x2 - x1) <? m)%Z = false) by (apply Z.ltb_ge; lia).
    assert (Ey : (Z.abs (y2 - y1) <? m)%Z = false) by (apply Z.ltb_ge; lia).
    rewrite Ex, Ey. simpl. split; [reflexivity|].
    rewrite length_app. simpl. lia.
  - reflexivity.
Qed.

Lemma C5_add_annotation_reject_or_append_witness :
  add_annotation (Some (100, 100)%Z) (Some (10, 10)%Z) (Some (12, 20)%Z) 10 0 [] = [].
Proof.
  apply (proj1 (C5_add_annotation_reject_or_append 100 100 10 10 12 20 10 0 [])).
  left. vm_compute. reflexivity.
Defined.

Lemma qtrunc_eq (q : Q) (z : Z) : q == inject_Z z -> qtrunc q = z.
Proof.
  intros Hq. unfold qtrunc.
  destruct (Qle_bool 0 q) eqn:E.
  - rewrite Hq. apply Qfloor_Z.
  - assert (Hn : - q == inject_Z (- z)) by (rewrite inject_Z_opp, Hq; reflexivity).
    rewrite Hn, Qfloor_Z. lia.
Qed.

Lemma inject_Z_pos_neq (w : Z) : (0 < w)%Z -> ~ inject_Z w == 0.
Proof.
  intros Hw E. rewrite Zlt_Qlt in Hw. rewrite E in Hw. exact (Qlt_irrefl 0 Hw).
Qed.

Lemma denorm_low (a1 a2 w : Z) : (0 < w)%Z ->
  ((inject_Z (a1 + a2) / 2) / inject_Z w
   + - ((inject_Z (Z.abs (a2 - a1)) / inject_Z w) / 2)) * inject_Z w
  == inject_Z (Z.min a1 a2).
Proof.
  intros Hw. pose proof (inject_Z_pos_neq w Hw) as Hq.
  destruct (Z.le_ge_cases a1 a2) as [H|H].
  - rewrite Z.abs_eq, Z.min_l by lia.
    unfold Z.sub. rewrite !inject_Z_plus, !inject_Z_opp. field. exact Hq.
  - rewrite Z.abs_neq, Z.min_r by lia.
    unfold Z.sub. rewrite Z.opp_add_distr, Z.opp_involutive, !inject_Z_plus, !inject_Z_opp.
    field. exact Hq.
Qed.

Lemma denorm_high (a1 a2 w : Z) : (0 < w)%Z ->
  ((inject_Z (a1 + a2) / 2) / inject_Z w
   + (inject_Z (Z.abs (a2 - a1)) / inject_Z w) / 2) * inject_Z w
  == inject_Z (Z.max a1 a2).
Proof.
  intros Hw. pose proof (inject_Z_pos_neq w Hw) as Hq.
  destruct (Z.le_ge_cases a1 a2) as [H|H].
  - rewrite Z.abs_eq, Z.max_r by lia.
    unfold Z.sub. rewrite !inject_Z_plus, !inject_Z_opp. field. exact Hq.
  - rewrite Z.abs_neq, Z.max_l by lia.
    unfold Z.sub. rewrite Z.opp_add_distr, Z.opp_involutive, !inject_Z_plus, !inject_Z_opp.
    field. exact Hq.
Qed.

Lemma unit_center (a1 a2 w : Z) :
  (1 <= w)%Z -> (0 <= a1 < w)%Z -> (0 <= a2 < w)%Z ->
  0 <= (inject_Z (a1 + a2) / 2) / inject_Z w <= 1.
Proof.
  intros Hw H1 H2.
  assert (Wpos : 0 < inject_Z w) by (change 0 with (inject_Z 0); rewrite <- Zlt_Qlt; lia).
  split.
  - apply Qle_shift_div_l; [exact Wpos|]. rewrite Qmult_0_l.
    apply Qle_shift_div_l; [reflexivity|]. rewrite Qmult_0_l.
    change 0 with (inject_Z 0). rewrite <- Zle_Qle. lia.
  - apply Qle_shift_div_r; [exact Wpos|]. rewrite Qmult_1_l.
    apply Qle_shift_div_r; [reflexivity|].
    change 2 with (inject_Z 2). rewrite <- inject_Z_mult, <- Zle_Qle. lia.
Qed.

Lemma unit_extent (a1 a2 w : Z) :
  (1 <= w)%Z -> (0 <= a1 < w)%Z -> (0 <= a2 < w)%Z ->
  0 <= inject_Z (Z.abs (a2 - a1)) / inject_Z w <= 1.
Proof.
  intros Hw H1 H2.
  assert (Wpos : 0 < inject_Z w) by (change 0 with (inject_Z 0); rewrite <- Zlt_Qlt; lia).
  split.
  - apply Qle_shift_div_l; [exact Wpos|]. rewrite Qmult_0_l.
    change 0 with (inject_Z 0). rewrite <- Zle_Qle. lia.
  - apply Qle_shift_div_r; [exact Wpos|]. rewrite Qmult_1_l.
    rewrite <- Zle_Qle. lia.
Qed.

(** The last step of a corner: [int(s * w)] for [s] within [2 ^ -48] of an
    exact [S] with [S * w = v]. *)
Lemma corner_last (w v : Z) (s S : Q) :
  (1 <= w <= 2 ^ 31)%Z -> (0 <= v)%Z -> S * inject_Z w == inject_Z v ->
  - (1 # 281474976710656) <= s - S <= 1 # 281474976710656 -> - 4 <= s <= 4 ->
  exists t, py_trunc (fmulZ (Fin s) w) = Some t /\ (v - 1 <= t <= v)%Z.
Proof.
  intros Hw Hv ES Hs Hb. unfold fmulZ.
  assert (Rw : round64 (inject_Z w) == inject_Z w) by (apply round64_int; lia).
  assert (Wq : 1 <= inject_Z w <= 2147483648).
  { split; [change 1 with (inject_Z 1) | change 2147483648 with (inject_Z (2 ^ 31))];
      rewrite <- Zle_Qle; lia. }
  assert (EP : s * round64 (inject_Z w) == s * inject_Z w) by (rewrite Rw; reflexivity).
  assert (BP : - 8589934592 <= s * round64 (inject_Z w) <= 8589934592) by (rewrite EP; nra).
  destruct (rnd _ 8589934592 BP) as [Ed Er]; [unfold Qle; simpl; lia|].
  rewrite Ed. simpl. eexists; split; [reflexivity|].
  set (t := round64 (s * round64 (inject_Z w))) in *.
  rewrite EP in Er.
  assert (K : - (1 # 100) <= (s - S) * inject_Z w <= 1 # 100) by nra.
  apply qtrunc_near; [exact Hv | |]; rewrite <- ES; nra.
Qed.

(** The two corners of one axis of a box created from [a1], [a2] on a
    side of [w] pixels, denormalized again: each within one pixel below
    the drawn corner. *)
Lemma corners_roundtrip (w a1 a2 : Z) :
  (1 <= w <= 2 ^ 31)%Z -> (0 <= a1 < w)%Z -> (0 <= a2 < w)%Z ->
  exists lo hi,
    py_trunc (fmulZ (fsub (fdivZ (int_truediv (a1 + a2) 2) w)
                          (fhalf (int_truediv (Z.abs (a2 - a1)) w))) w) = Some lo /\
    py_trunc (fmulZ (fadd (fdivZ (int_truediv (a1 + a2) 2) w)
                          (fhalf (int_truediv (Z.abs (a2 - a1)) w))) w) = Some hi /\
    (Z.min a1 a2 - 1 <= lo <= Z.min a1 a2)%Z /\ (Z.max a1 a2 - 1 <= hi <= Z.max a1 a2)%Z.
Proof.
  intros Hw H1 H2.
  assert (Rw : round64 (inject_Z w) == inject_Z w) by (apply round64_int; lia).
  (* [(a1 + a2) / 2] is exact *)
  assert (Bc : - 1099511627776 <= inject_Z (a1 + a2) / inject_Z 2 <= 1099511627776).
  { pose proof (Z_range_Q (a1 + a2) 0 (2 ^ 32) ltac:(lia)) as B.
    change (inject_Z 0) with 0 in B. change (inject_Z (2 ^ 32)) with 4294967296 in B.
    change (inject_Z (a1 + a2) / inject_Z 2) with (inject_Z (a1 + a2) * (1 # 2)). lra. }
  unfold int_truediv. rewrite (to_double_small _ Bc).
  assert (Ec : round64 (inject_Z (a1 + a2) / inject_Z 2) == inject_Z (a1 + a2) / 2)
    by (apply round64_half; lia).
  set (c0 := round64 (inject_Z (a1 + a2) / inject_Z 2)) in *.
  (* x_center *)
  set (A := (inject_Z (a1 + a2) / 2) / inject_Z w).
  assert (UA : 0 <= A <= 1) by (apply unit_center; lia).
  assert (EA : c0 / round64 (inject_Z w) == A) by (unfold A; rewrite Ec, Rw; reflexivity).
  assert (BA : - 1 <= c0 / round64 (inject_Z w) <= 1) by (rewrite EA; lra).
  destruct (rnd _ 1 BA) as [Exc Rxc]; [unfold Qle; simpl; lia|].
  unfold fdivZ. rewrite Exc.
  set (xc := round64 (c0 / round64 (inject_Z w))) in *. rewrite EA in Rxc.
  (* width *)
  set (D := inject_Z (Z.abs (a2 - a1)) / inject_Z w).
  assert (UD : 0 <= D <= 1) by (apply unit_extent; lia).
  assert (BD : - 1 <= D <= 1) by lra.
  destruct (rnd _ 1 BD) as [Ebw Rbw]; [unfold Qle; simpl; lia|].
  fold D. rewrite Ebw.
  set (bw := round64 D) in *.
  (* width / 2 *)
  assert (BH : - 1 <= bw / 2 <= 1) by (change (bw / 2) with (bw * (1 # 2)); lra).
  destruct (rnd _ 1 BH) as [Ehb Rhb]; [unfold Qle; simpl; lia|].
  unfold fhalf. rewrite Ehb.
  set (hb := round64 (bw / 2)) in *. change (bw / 2) with (bw * (1 # 2)) in Rhb.
  (* the two sums *)
  assert (BL : - 3 <= xc + - hb <= 3) by lra.
  assert (BR : - 3 <= xc + hb <= 3) by lra.
  destruct (rnd _ 3 BL) as [El Rl]; [unfold Qle; simpl; lia|].
  destruct (rnd _ 3 BR) as [Eh Rh]; [unfold Qle; simpl; lia|].
  cbn [fsub fneg fadd]. rewrite El, Eh.
  destruct (corner_last w (Z.min a1 a2) (round64 (xc + - hb)) (A + - (D / 2)))
    as [lo [Elo Blo]].
  { exact Hw. }
  { lia. }
  { apply denorm_low. lia. }
  { change (D / 2) with (D * (1 # 2)). lra. }
  { lra. }
  destruct (corner_last w (Z.max a1 a2) (round64 (xc + hb)) (A + D / 2)) as [hi [Ehi Bhi]].
  { exact Hw. }
  { lia. }
  { apply denorm_high. lia. }
  { change (D / 2) with (D * (1 # 2)). lra. }
  { lra. }
  exists lo, hi. split; [exact Elo|]. split; [exact Ehi|]. split; assumption.
Qed.

Lemma center_field (w a1 a2 : Z) :
  (1 <= w <= 2 ^ 31)%Z -> (0 <= a1 < w)%Z -> (0 <= a2 < w)%Z ->
  exists xc, fdivZ (int_truediv (a1 + a2) 2) w = Fin xc /\ 0 <= xc <= 1.
Proof.
  intros Hw H1 H2.
  assert (Rw : round64 (inject_Z w) == inject_Z w) by (apply round64_int; lia).
  assert (Bc : - 1099511627776 <= inject_Z (a1 + a2) / inject_Z 2 <= 1099511627776).
  { pose proof (Z_range_Q (a1 + a2) 0 (2 ^ 32) ltac:(lia)) as B.
    change (inject_Z 0) with 0 in B. change (inject_Z (2 ^ 32)) with 4294967296 in B.
    change (inject_Z (a1 + a2) / inject_Z 2) with (inject_Z (a1 + a2) * (1 # 2)). lra. }
  unfold int_truediv. rewrite (to_double_small _ Bc).
  assert (Ec : round64 (inject_Z (a1 + a2) / inject_Z 2) == inject_Z (a1 + a2) / 2)
    by (apply round64_half; lia).
  set (c0 := round64 (inject_Z (a1 + a2) / inject_Z 2)) in *.
  set (A := (inject_Z (a1 + a2) / 2) / inject_Z w).
  assert (UA : 0 <= A <= 1) by (apply unit_center; lia).
  assert (EA : c0 / round64 (inject_Z w) == A) by (unfold A; rewrite Ec, Rw; reflexivity).
  assert (BA : - 1 <= c0 / round64 (inject_Z w) <= 1) by (rewrite EA; lra).
  unfold fdivZ. rewrite (proj1 (rnd _ 1 BA ltac:(unfold Qle; simpl; lia))).
  eexists; split; [reflexivity|].
  assert (Wq : 1 <= inject_Z w <= 2147483648).
  { split; [change 1 with (inject_Z 1) | change 2147483648 with (inject_Z (2 ^ 31))];
      rewrite <- Zle_Qle; lia. }
  assert (Wp : 0 < inject_Z w) by lra.
  assert (Up : A <= 1 - (1 # 2147483648)).
  { unfold A. apply Qle_shift_div_r; [exact Wp|].
    assert (S : inject_Z (a1 + a2) <= 2 * inject_Z w - 2).
    { assert (S' : inject_Z (a1 + a2) <= inject_Z (2 * w + -2)) by (rewrite <- Zle_Qle; lia).
      rewrite (inject_Z_plus (2 * w)), inject_Z_mult in S'. exact S'. }
    change (inject_Z (a1 + a2) / 2) with (inject_Z (a1 + a2) * (1 # 2)). nra. }
  assert (Lo : A == 0 \/ 1 # 4294967296 <= A).
  { destruct (Z.eq_dec (a1 + a2) 0) as [E0 | E0].
    - left. unfold A. rewrite E0. reflexivity.
    - right. unfold A. apply Qle_shift_div_l; [exact Wp|].
      assert (S : 1 <= inject_Z (a1 + a2)) by (change 1 with (inject_Z 1); rewrite <- Zle_Qle; lia).
      change (inject_Z (a1 + a2) / 2) with (inject_Z (a1 + a2) * (1 # 2)). nra. }
  destruct (round64_in_unit A Lo Up) as [R _].
  rewrite (round64_proper _ _ EA). exact R.
Qed.

Lemma extent_field (w a1 a2 : Z) :
  (1 <= w <= 2 ^ 31)%Z -> (0 <= a1 < w)%Z -> (0 <= a2 < w)%Z -> (1 <= Z.abs (a2 - a1))%Z ->
  exists bw, int_truediv (Z.abs (a2 - a1)) w = Fin bw /\ 0 < bw < 1.
Proof.
  intros Hw H1 H2 Hd.
  set (D := inject_Z (Z.abs (a2 - a1)) / inject_Z w).
  assert (UD : 0 <= D <= 1) by (apply unit_extent; lia).
  assert (BD : - 1 <= D <= 1) by lra.
  unfold int_truediv. fold D. rewrite (proj1 (rnd _ 1 BD ltac:(unfold Qle; simpl; lia))).
  eexists; split; [reflexivity|].
  assert (Wq : 1 <= inject_Z w <= 2147483648).
  { split; [change 1 with (inject_Z 1) | change 2147483648 with (inject_Z (2 ^ 31))];
      rewrite <- Zle_Qle; lia. }
  assert (Wp : 0 < inject_Z w) by lra.
  assert (Up : D <= 1 - (1 # 2147483648)).
  { unfold D. apply Qle_shift_div_r; [exact Wp|].
    assert (S : inject_Z (Z.abs (a2 - a1)) <= inject_Z w - 1).
    { assert (S' : inject_Z (Z.abs (a2 - a1)) <= inject_Z (w + -1)) by (rewrite <- Zle_Qle; lia).
      rewrite inject_Z_plus in S'. exact S'. }
    nra. }
  assert (Lo : 1 # 4294967296 <= D).
  { unfold D. apply Qle_shift_div_l; [exact Wp|].
    assert (S : 1 <= inject_Z (Z.abs (a2 - a1))) by (change 1 with (inject_Z 1); rewrite <- Zle_Qle; lia).
    nra. }
  exact (proj2 (round64_in_unit D (or_intror Lo) Up) Lo).
Qed.



(** The box drawn from [(7, 10)] to [(61, 50)] on a 640x480 image comes
    back as [(6, 10, 61, 49)]: [x1] and [y2] one pixel less. *)
Example created_box_sample :
  denorm (created_box 640 480 7 10 61 50 0) 640 480 = Some (6, 10, 61, 49)%Z.
Proof. vm_compute. reflexivity. Qed.


(** ** Boxes drawn with the pointer *)

Lemma widget_to_image_coords_range (h w : Z) (sf : Q) (ox oy px py a b : Z) :
  (1 <= w)%Z -> (1 <= h)%Z ->
  widget_to_image_coords (Some (h, w)) sf ox oy px py = Some (a, b) ->
  (0 <= a <= w - 1)%Z /\ (0 <= b <= h - 1)%Z.
Proof.
  intros Hw Hh. unfold widget_to_image_coords.
  destruct (Qeq_bool sf 0); [discriminate|].
  destruct (py_trunc (to_double (round64 (inject_Z (px - ox)) / sf))); [|discriminate].
  destruct (py_trunc (to_double (round64 (inject_Z (py - oy)) / sf))); [|discriminate].
  intros E; injection E as <- <-. lia.
Qed.




(** ** Navigation *)

Lemma py_index_in_range {A} (l : list A) (i : Z) :
  (0 <= i < Z.of_nat (List.length l))%Z -> exists f, py_index l i = Some f.
Proof.
  intros Hi. unfold py_index.
  assert (E : (0 <=? i)%Z = true) by (apply Z.leb_le; lia). rewrite E.
  destruct (nth_error l (Z.to_nat i)) as [f|] eqn:En; [eauto|].
  apply nth_error_None in En. lia.
Qed.

Lemma is_empty_list_false {A} (l : list A) : l <> [] -> is_empty_list l = false.
Proof. destruct l; [contradiction | reflexivity]. Qed.

Lemma save_current_annotations_frame (s s1 : session) :
  save_current_annotations s = Some s1 ->
  image_files s1 = image_files s /\ current_image_index s1 = current_image_index s /\
  output_folder s1 = output_folder s /\ annotations s1 = annotations s.
Proof.
  unfold save_current_annotations.
  destruct (is_empty_list (image_files s) || String.eqb (output_folder s) "").
  - intros H; injection H as <-; auto.
  - destruct (negb (makedirs_ok s (output_folder s))); [discriminate|].
    destruct (py_index (image_files s) (current_image_index s)) as [f|]; [|discriminate].
    destruct (writable s (label_path s f)); intros H; injection H as <-; simpl; auto.
Qed.

Lemma save_current_annotations_env (s s1 : session) :
  save_current_annotations s = Some s1 ->
  readable s1 = readable s /\ images_folder s1 = images_folder s /\
  makedirs_ok s1 = makedirs_ok s /\ writable s1 = writable s.
Proof.
  unfold save_current_annotations.
  destruct (is_empty_list (image_files s) || String.eqb (output_folder s) "").
  - intros H; injection H as <-; auto.
  - destruct (negb (makedirs_ok s (output_folder s))); [discriminate|].
    destruct (py_index (image_files s) (current_image_index s)) as [f|]; [|discriminate].
    destruct (writable s (label_path s f)); intros H; injection H as <-; simpl; auto.
Qed.

Lemma save_current_annotations_some (s : session) :
  (0 <= current_image_index s < Z.of_nat (List.length (image_files s)))%Z ->
  (output_folder s = "" \/ makedirs_ok s (output_folder s) = true) ->
  exists s1, save_current_annotations s = Some s1.
Proof.
  intros Hi Ho. unfold save_current_annotations.
  destruct (is_empty_list (image_files s) || String.eqb (output_folder s) "") eqn:E; [eauto|].
  destruct Ho as [Ho | Ho].
  - rewrite Ho, orb_true_r in E. discriminate.
  - rewrite Ho. simpl. destruct (py_index_in_range _ _ Hi) as [f ->].
    destruct (writable s (label_path s f)); eauto.
Qed.

Lemma load_current_image_effect (s s' : session) :
  load_current_image s = Some s' ->
  current_image_index s' = current_image_index s /\ image_files s' = image_files s /\
  disk s' = disk s /\
  (log s' = log s \/ exists p, log s' = (log s ++ [EPopulate p])%list) /\
  (output_folder s = "" -> log s' = log s).
Proof.
  unfold load_current_image.
  destruct (is_empty_list (image_files s)
            || (Z.of_nat (List.length (image_files s)) <=? current_image_index s)%Z).
  { intros H; injection H as <-; repeat split; auto. }
  destruct (py_index (image_files s) (current_image_index s)) as [f|]; [|discriminate].
  destruct (readable s (path_join (images_folder s) f)) as [d|].
  2: { intros H; injection H as <-; simpl; repeat split; auto. }
  unfold load_annotations_for_current_image; simpl.
  destruct (is_empty_list (image_files s) || String.eqb (output_folder s) "") eqn:Eo.
  { intros H; injection H as <-; simpl; repeat split; auto. }
  destruct (py_index (image_files s) (current_image_index s)); [|discriminate].
  intros H; injection H as <-; simpl.
  repeat split; auto.
  - right; eexists; reflexivity.
  - intros Ho. rewrite Ho, orb_true_r in Eo. discriminate.
Qed.

Lemma load_current_image_env (s s' : session) :
  load_current_image s = Some s' ->
  makedirs_ok s' = makedirs_ok s /\ writable s' = writable s.
Proof.
  unfold load_current_image.
  destruct (is_empty_list (image_files s)
            || (Z.of_nat (List.length (image_files s)) <=? current_image_index s)%Z).
  { intros H; injection H as <-; auto. }
  destruct (py_index (image_files s) (current_image_index s)) as [f|]; [|discriminate].
  destruct (readable s (path_join (images_folder s) f)) as [d|].
  2: { intros H; injection H as <-; simpl; auto. }
  unfold load_annotations_for_current_image; simpl.
  destruct (is_empty_list (image_files s) || String.eqb (output_folder s) "").
  { intros H; injection H as <-; simpl; auto. }
  destruct (py_index (image_files s) (current_image_index s)); [|discriminate].
  intros H; injection H as <-; simpl; auto.
Qed.

Lemma load_current_image_some (s : session) :
  (0 <= current_image_index s < Z.of_nat (List.length (image_files s)))%Z ->
  exists s', load_current_image s = Some s'.
Proof.
  intros Hi. unfold load_current_image.
  destruct (is_empty_list (image_files s)
            || (Z.of_nat (List.length (image_files s)) <=? current_image_index s)%Z); [eauto|].
  destruct (py_index_in_range _ _ Hi) as [f ->].
  destruct (readable s (path_join (images_folder s) f)) as [d|]; [|eauto].
  unfold load_annotations_for_current_image; simpl.
  destruct (is_empty_list (image_files s) || String.eqb (output_folder s) ""); [eauto|].
  destruct (py_index_in_range _ _ Hi) as [f' ->]. eauto.
Qed.

Lemma next_image_navigate (s : session) : image_files s <> [] -> next_image s = navigate s 1.
Proof. intros H. unfold next_image. rewrite is_empty_list_false by exact H. reflexivity. Qed.

Lemma previous_image_navigate (s : session) :
  image_files s <> [] -> previous_image s = navigate s (-1).
Proof. intros H. unfold previous_image. rewrite is_empty_list_false by exact H. reflexivity. Qed.

Lemma mod_in_range (a n : Z) : (0 < n)%Z -> (0 <= a mod n < n)%Z.
Proof. intros Hn. apply Z.mod_pos_bound. exact Hn. Qed.

Lemma navigate_index_of (s s' : session) (d : Z) :
  navigate s d = Some s' ->
  current_image_index s'
  = ((current_image_index s + d) mod Z.of_nat (List.length (image_files s)))%Z.
Proof.
  unfold navigate. destruct (save_current_annotations s) as [s1|] eqn:Hs1; [|discriminate].
  intros Hs'. destruct (save_current_annotations_frame s s1 Hs1) as (Hf & Hix & _ & _).
  destruct (load_current_image_effect _ _ Hs') as (-> & _).
  simpl. rewrite Hix, Hf. reflexivity.
Qed.

Lemma navigate_index (s : session) (d : Z) :
  (0 <= current_image_index s < Z.of_nat (List.length (image_files s)))%Z ->
  (output_folder s = "" \/ makedirs_ok s (output_folder s) = true) ->
  exists s', navigate s d = Some s' /\
    current_image_index s'
    = ((current_image_index s + d) mod Z.of_nat (List.length (image_files s)))%Z.
Proof.
  intros Hi Ho. unfold navigate.
  destruct (save_current_annotations_some s Hi Ho) as [s1 Hs1]. rewrite Hs1.
  destruct (save_current_annotations_frame s s1 Hs1) as (Hf & Hix & _ & _).
  set (j := ((current_image_index s1 + d) mod Z.of_nat (List.length (image_files s1)))%Z).
  assert (Hj : (0 <= current_image_index (with_index s1 j)
                < Z.of_nat (List.length (image_files (with_index s1 j))))%Z).
  { simpl. unfold j. apply mod_in_range. rewrite Hf. lia. }
  destruct (load_current_image_some _ Hj) as [s' Hs'].
  exists s'. split; [exact Hs'|].
  destruct (load_current_image_effect _ _ Hs') as (-> & _).
  simpl. unfold j. rewrite Hix, Hf. reflexivity.
Qed.




Lemma navigate_saves_first (s : session) (d : Z) (f : string) :
  output_folder s <> "" -> makedirs_ok s (output_folder s) = true ->
  writable s (label_path s f) = true ->
  (0 <= current_image_index s < Z.of_nat (List.length (image_files s)))%Z ->
  py_index (image_files s) (current_image_index s) = Some f ->
  exists s' rest,
    navigate s d = Some s' /\
    log s' = (log s ++ EWrite (label_path s f) (encode (annotations s))
                 :: ESetIndex ((current_image_index s + d)
                               mod Z.of_nat (List.length (image_files s)))%Z :: rest)%list /\
    Forall is_populate rest /\
    disk s' (label_path s f) = Some (encode (annotations s)).
Proof.
  intros Ho Hmk Hw Hi Hf. unfold navigate, save_current_annotations.
  assert (Hne : image_files s <> []) by (intros E; rewrite E in Hi; simpl in Hi; lia).
  rewrite is_empty_list_false by exact Hne.
  apply String.eqb_neq in Ho. rewrite Ho, Hmk, Hf, Hw. simpl.
  set (s1 := with_write s (label_path s f) (encode (annotations s))).
  set (j := ((current_image_index s + d) mod Z.of_nat (List.length (image_files s)))%Z).
  assert (Hj : (0 <= current_image_index (with_index s1 j)
                < Z.of_nat (List.length (image_files (with_index s1 j))))%Z).
  { simpl. unfold j. apply mod_in_range. lia. }
  destruct (load_current_image_some _ Hj) as [s' Hs'].
  destruct (load_current_image_effect _ _ Hs') as (_ & _ & Hdisk & Hlog & _).
  simpl in Hdisk, Hlog.
  destruct Hlog as [Hlog | [p Hlog]].
  - exists s', []. split; [exact Hs'|]. split.
    + rewrite Hlog, <- app_assoc. reflexivity.
    + split; [constructor|]. rewrite Hdisk. simpl. rewrite String.eqb_refl. reflexivity.
  - exists s', [EPopulate p]. split; [exact Hs'|]. split.
    + rewrite Hlog, <- !app_assoc. reflexivity.
    + split; [repeat constructor|]. rewrite Hdisk. simpl. rewrite String.eqb_refl. reflexivity.
Qed.

Lemma navigate_write_fails (s : session) (d : Z) (f : string) :
  output_folder s <> "" -> makedirs_ok s (output_folder s) = true ->
  writable s (label_path s f) = false ->
  (0 <= current_image_index s < Z.of_nat (List.length (image_files s)))%Z ->
  py_index (image_files s) (current_image_index s) = Some f ->
  exists s' rest,
    navigate s d = Some s' /\
    log s' = (log s ++ ESetIndex ((current_image_index s + d)
                                  mod Z.of_nat (List.length (image_files s)))%Z :: rest)%list /\
    Forall is_populate rest /\ disk s' = disk s.
Proof.
  intros Ho Hmk Hw Hi Hf. unfold navigate, save_current_annotations.
  assert (Hne : image_files s <> []) by (intros E; rewrite E in Hi; simpl in Hi; lia).
  rewrite is_empty_list_false by exact Hne.
  apply String.eqb_neq in Ho. rewrite Ho, Hmk, Hf, Hw. simpl.
  set (j := ((current_image_index s + d) mod Z.of_nat (List.length (image_files s)))%Z).
  assert (Hj : (0 <= current_image_index (with_index s j)
                < Z.of_nat (List.length (image_files (with_index s j))))%Z).
  { simpl. unfold j. apply mod_in_range. lia. }
  destruct (load_current_image_some _ Hj) as [s' Hs'].
  destruct (load_current_image_effect _ _ Hs') as (_ & _ & Hdisk & Hlog & _).
  simpl in Hdisk, Hlog.
  destruct Hlog as [Hlog | [p Hlog]].
  - exists s', []. split; [exact Hs'|]. split; [rewrite Hlog; reflexivity|].
    split; [constructor | exact Hdisk].
  - exists s', [EPopulate p]. split; [exact Hs'|]. split.
    + rewrite Hlog, <- app_assoc. reflexivity.
    + split; [repeat constructor | exact Hdisk].
Qed.

Lemma navigate_makedirs_fails (s : session) (d : Z) :
  image_files s <> [] -> output_folder s <> "" -> makedirs_ok s (output_folder s) = false ->
  navigate s d = None.
Proof.
  intros Hne Ho Hmk. unfold navigate, save_current_annotations.
  rewrite is_empty_list_false by exact Hne.
  apply String.eqb_neq in Ho. rewrite Ho, Hmk. reflexivity.
Qed.

Lemma navigate_without_output_folder (s : session) (d : Z) :
  output_folder s = "" ->
  (0 <= current_image_index s < Z.of_nat (List.length (image_files s)))%Z ->
  exists s',
    navigate s d = Some s' /\
    log s' = (log s ++ [ESetIndex ((current_image_index s + d)
                                   mod Z.of_nat (List.length (image_files s)))%Z])%list /\
    disk s' = disk s.
Proof.
  intros Ho Hi. unfold navigate, save_current_annotations.
  rewrite Ho, orb_true_r.
  set (j := ((current_image_index s + d) mod Z.of_nat (List.length (image_files s)))%Z).
  assert (Hj : (0 <= current_image_index (with_index s j)
                < Z.of_nat (List.length (image_files (with_index s j))))%Z).
  { simpl. unfold j. apply mod_in_range. lia. }
  destruct (load_current_image_some _ Hj) as [s' Hs'].
  destruct (load_current_image_effect _ _ Hs') as (_ & _ & Hdisk & _ & Hlog).
  exists s'. split; [exact Hs'|]. split; [apply Hlog; exact Ho | exact Hdisk].
Qed.




(** ** Removing a class *)

Lemma remove_nth_firstn_skipn {A} (i : nat) (l : list A) :
  remove_nth i l = (firstn i l ++ skipn (S i) l)%list.
Proof.
  revert i; induction l as [|a l IH]; intros [|i]; try reflexivity.
  change (a :: remove_nth i l = a :: (firstn i l ++ skipn (S i) l))%list.
  rewrite IH. reflexivity.
Qed.



(** ** Saving, then reading the label file back *)

Lemma str_app_nil (s : string) : s ++ "" = s.
Proof. induction s as [|c s IH]; simpl; [reflexivity | rewrite IH; reflexivity]. Qed.

Lemma no_ws_app (a b : string) : no_ws (a ++ b) = no_ws a && no_ws b.
Proof. induction a as [|x a IH]; simpl; [reflexivity | rewrite IH, andb_assoc; reflexivity]. Qed.

Lemma all_digits_no_ws (s : string) : all_digits s = true -> no_ws s = true.
Proof.
  induction s as [|c s IH]; simpl; [reflexivity|].
  intros H; apply andb_prop in H as [Hc Hs]. rewrite IH by exact Hs.
  unfold is_digit in Hc; unfold is_space.
  apply andb_prop in Hc as [H1 H2]. apply Nat.leb_le in H1, H2.
  destruct (9 <=? nat_of_ascii c)%nat eqn:E1; destruct (nat_of_ascii c <=? 13)%nat eqn:E2;
  destruct (28 <=? nat_of_ascii c)%nat eqn:E3; destruct (nat_of_ascii c <=? 32)%nat eqn:E4;
  simpl; try reflexivity;
  repeat match goal with H : (_ <=? _)%nat = true |- _ => apply Nat.leb_le in H end; lia.
Qed.

Lemma int_str_no_ws (n : Z) : no_ws (int_str n) = true.
Proof.
  unfold int_str. destruct (n <? 0)%Z.
  - cbn [append no_ws]. apply all_digits_no_ws, nat_str_ok.
  - apply all_digits_no_ws, nat_str_ok.
Qed.

Lemma fmt6_no_ws (x : pyfloat) : no_ws (fmt6 x) = true.
Proof.
  destruct x as [q|[|]|]; try reflexivity.
  unfold fmt6. rewrite !no_ws_app.
  rewrite (all_digits_no_ws _ (proj1 (nat_str_ok _))).
  rewrite (all_digits_no_ws _ (proj1 (fixed_digits_ok _ _))).
  destruct (negb (Qle_bool 0 q)); reflexivity.
Qed.

Lemma fmt6_ne (x : pyfloat) : fmt6 x <> "".
Proof.
  destruct x as [q|[|]|]; try discriminate.
  unfold fmt6. destruct (negb (Qle_bool 0 q)); [discriminate|].
  destruct (nat_str_ok (round_half_even
     ((if false then - q else q) * inject_Z (10 ^ 6)) / 10 ^ 6)) as [_ Hne].
  cbn [append]. destruct (nat_str _); [contradiction | discriminate].
Qed.

Lemma int_str_ne (n : Z) : int_str n <> "".
Proof. apply int_str_ok. Qed.

Lemma split_aux_tok (t r cur : string) :
  no_ws t = true -> split_aux (t ++ r) cur = split_aux r (cur ++ t).
Proof.
  revert cur; induction t as [|c t IH]; intros cur H; simpl.
  - rewrite str_app_nil; reflexivity.
  - apply andb_prop in H as [Hc Ht]. apply negb_true_iff in Hc. rewrite Hc.
    rewrite IH by exact Ht. rewrite str_app_assoc. reflexivity.
Qed.

Lemma eqb_ne (s : string) : s <> "" -> String.eqb s "" = false.
Proof. intros H. apply String.eqb_neq. exact H. Qed.

Lemma split_tokens (t1 t2 t3 t4 t5 : string) :
  no_ws t1 = true -> no_ws t2 = true -> no_ws t3 = true -> no_ws t4 = true ->
  no_ws t5 = true -> t1 <> "" -> t2 <> "" -> t3 <> "" -> t4 <> "" -> t5 <> "" ->
  split (t1 ++ " " ++ t2 ++ " " ++ t3 ++ " " ++ t4 ++ " " ++ t5) = [t1; t2; t3; t4; t5].
Proof.
  intros H1 H2 H3 H4 H5 N1 N2 N3 N4 N5. unfold split.
  rewrite split_aux_tok by exact H1. cbn [append split_aux].
  change (is_space " ") with true. cbn iota. rewrite (eqb_ne _ N1).
  rewrite split_aux_tok by exact H2. cbn [append split_aux].
  change (is_space " ") with true. cbn iota. rewrite (eqb_ne _ N2).
  rewrite split_aux_tok by exact H3. cbn [append split_aux].
  change (is_space " ") with true. cbn iota. rewrite (eqb_ne _ N3).
  rewrite split_aux_tok by exact H4. cbn [append split_aux].
  change (is_space " ") with true. cbn iota. rewrite (eqb_ne _ N4).
  rewrite <- (str_app_nil t5) at 1.
  rewrite split_aux_tok by exact H5. cbn [append split_aux].
  rewrite (eqb_ne _ N5). reflexivity.
Qed.

Lemma no_ws_not_nl (c : ascii) :
  is_space c = false -> ((nat_of_ascii c =? 10) || (nat_of_ascii c =? 13))%nat = false.
Proof.
  unfold is_space. intros H.
  destruct (nat_of_ascii c =? 10)%nat eqn:E1; [apply Nat.eqb_eq in E1; rewrite E1 in H; discriminate|].
  destruct (nat_of_ascii c =? 13)%nat eqn:E2; [apply Nat.eqb_eq in E2; rewrite E2 in H; discriminate|].
  reflexivity.
Qed.

Lemma no_nl_app (a b : string) : no_nl (a ++ b) = no_nl a && no_nl b.
Proof. induction a as [|x a IH]; simpl; [reflexivity | rewrite IH, andb_assoc; reflexivity]. Qed.

Lemma no_ws_no_nl (s : string) : no_ws s = true -> no_nl s = true.
Proof.
  induction s as [|c s IH]; simpl; [reflexivity|].
  intros H; apply andb_prop in H as [Hc Hs]. apply negb_true_iff in Hc.
  rewrite (no_ws_not_nl c Hc), IH by exact Hs. reflexivity.
Qed.

Lemma lines_aux_tok (t r cur : string) :
  no_nl t = true -> lines_aux (t ++ r) cur = lines_aux r (cur ++ t).
Proof.
  revert cur; induction t as [|c t IH]; intros cur H; simpl.
  - rewrite str_app_nil; reflexivity.
  - apply andb_prop in H as [Hc Ht]. apply negb_true_iff in Hc.
    rewrite Hc. rewrite IH by exact Ht. rewrite str_app_assoc. reflexivity.
Qed.

Lemma lines_aux_nl (r cur : string) : lines_aux (nl ++ r) cur = cur :: lines_aux r "".
Proof. reflexivity. Qed.

Lemma line_body_no_nl (b : box) : no_nl (line_body b) = true.
Proof.
  unfold line_body. rewrite !no_nl_app.
  rewrite (no_ws_no_nl _ (int_str_no_ws _)), !(no_ws_no_nl _ (fmt6_no_ws _)).
  reflexivity.
Qed.

Lemma encode_line_body (b : box) : encode_line b = line_body b ++ nl.
Proof. unfold encode_line, line_body. rewrite !str_app_assoc. reflexivity. Qed.

Lemma file_lines_encode (anns : list box) : file_lines (encode anns) = map line_body anns.
Proof.
  unfold file_lines. induction anns as [|b anns IH]; [reflexivity|].
  cbn [encode map]. rewrite encode_line_body, str_app_assoc.
  rewrite lines_aux_tok by apply line_body_no_nl.
  rewrite lines_aux_nl, IH. reflexivity.
Qed.

Lemma rev_string_app (a b : string) : rev_string (a ++ b) = rev_string b ++ rev_string a.
Proof.
  induction a as [|c a IH]; simpl.
  - rewrite str_app_nil; reflexivity.
  - rewrite IH, str_app_assoc. reflexivity.
Qed.

Lemma rev_string_inv (s : string) : rev_string (rev_string s) = s.
Proof.
  induction s as [|c s IH]; simpl; [reflexivity|].
  rewrite rev_string_app, IH. reflexivity.
Qed.

Lemma no_ws_rev (s : string) : no_ws (rev_string s) = no_ws s.
Proof.
  induction s as [|c s IH]; simpl; [reflexivity|].
  rewrite no_ws_app, IH. simpl. rewrite andb_true_r, andb_comm. reflexivity.
Qed.

Lemma rev_string_ne (s : string) : s <> "" -> rev_string s <> "".
Proof.
  intros H E. apply H. rewrite <- (rev_string_inv s), E. reflexivity.
Qed.

Lemma lstrip_tok (t r : string) : no_ws t = true -> t <> "" -> lstrip (t ++ r) = t ++ r.
Proof.
  destruct t as [|c t]; [intros _ H; contradiction|]. intros H _.
  simpl in H. apply andb_prop in H as [Hc _]. apply negb_true_iff in Hc.
  simpl. rewrite Hc. reflexivity.
Qed.

Lemma strip_tok_ends (t1 m t2 : string) :
  no_ws t1 = true -> no_ws t2 = true -> t1 <> "" -> t2 <> "" ->
  strip (t1 ++ m ++ t2) = t1 ++ m ++ t2.
Proof.
  intros H1 H2 N1 N2. unfold strip.
  rewrite lstrip_tok by assumption.
  rewrite <- str_app_assoc, rev_string_app.
  rewrite lstrip_tok by (rewrite ?no_ws_rev; auto using rev_string_ne).
  rewrite <- rev_string_app, rev_string_inv, str_app_assoc. reflexivity.
Qed.

Lemma strip_line_body (b : box) : strip (line_body b) = line_body b.
Proof.
  assert (E : line_body b =
    int_str (cls_id b) ++ (" " ++ fmt6 (x_center b) ++ " " ++ fmt6 (y_center b)
      ++ " " ++ fmt6 (width b) ++ " ") ++ fmt6 (height b))
    by (unfold line_body; rewrite !str_app_assoc; reflexivity).
  rewrite E, strip_tok_ends; auto using int_str_no_ws, fmt6_no_ws, int_str_ne, fmt6_ne.
Qed.

Lemma split_line_body (b : box) :
  split (line_body b) = [int_str (cls_id b); fmt6 (x_center b); fmt6 (y_center b);
                         fmt6 (width b); fmt6 (height b)].
Proof.
  apply split_tokens; auto using int_str_no_ws, fmt6_no_ws, int_str_ne, fmt6_ne.
Qed.

Lemma digits_aux_app (s r : string) (acc : Z) (n : nat) :
  all_digits s = true ->
  digits_aux (s ++ r) acc n = digits_aux r (digits_num s acc) (n + String.length s).
Proof.
  revert acc n; induction s as [|c s IH]; intros acc n H; simpl.
  - rewrite Nat.add_0_r. reflexivity.
  - apply andb_prop in H as [Hc Hs]. rewrite Hc, IH by exact Hs.
    rewrite Nat.add_succ_r. reflexivity.
Qed.

Lemma digits_num_app (a b : string) (acc : Z) :
  digits_num (a ++ b) acc = digits_num b (digits_num a acc).
Proof. revert acc; induction a as [|c a IH]; intros acc; simpl; auto. Qed.

Lemma digit_value_char (d : Z) : (0 <= d < 10)%Z -> digit_value (digit_char d) = d.
Proof.
  intros Hd. unfold digit_value, digit_char.
  rewrite nat_ascii_embedding by lia. rewrite Nat.add_comm, Nat.add_sub. lia.
Qed.

Lemma fixed_digits_num (k : nat) (n acc : Z) :
  digits_num (fixed_digits k n) acc = (acc * 10 ^ Z.of_nat k + n mod 10 ^ Z.of_nat k)%Z.
Proof.
  revert n acc; induction k as [|k IH]; intros n acc.
  - simpl. rewrite Z.mod_1_r. lia.
  - cbn [fixed_digits]. rewrite digits_num_app, IH. cbn [digits_num].
    rewrite digit_value_char by (apply Z.mod_pos_bound; lia).
    rewrite Nat2Z.inj_succ, Z.pow_succ_r by lia.
    rewrite Z.rem_mul_r by (try apply Z.pow_pos_nonneg; lia).
    ring.
Qed.

Lemma nat_digits_num (f : nat) (n acc : Z) :
  (0 <= n < 10 ^ Z.of_nat (S f))%Z ->
  digits_num (nat_digits f n) acc
  = (acc * 10 ^ Z.of_nat (String.length (nat_digits f n)) + n)%Z.
Proof.
  revert n acc; induction f as [|f IH]; intros n acc Hn.
  - cbn [nat_digits digits_num String.length].
    rewrite digit_value_char by (apply Z.mod_pos_bound; lia).
    simpl in Hn. rewrite Z.mod_small by lia. lia.
  - cbn [nat_digits]. destruct (n <? 10)%Z eqn:E.
    + apply Z.ltb_lt in E. cbn [digits_num String.length].
      rewrite digit_value_char by lia. lia.
    + apply Z.ltb_ge in E.
      assert (Hq : (0 <= n / 10 < 10 ^ Z.of_nat (S f))%Z).
      { split; [apply Z.div_pos; lia|]. apply Z.div_lt_upper_bound; [lia|].
        rewrite <- Z.pow_succ_r by lia. rewrite <- Nat2Z.inj_succ. lia. }
      rewrite digits_num_app, (IH _ _ Hq). cbn [digits_num].
      rewrite digit_value_char by (apply Z.mod_pos_bound; lia).
      rewrite str_length_app. cbn [String.length].
      rewrite Nat2Z.inj_add, Z.pow_add_r by lia.
      pose proof (Z.div_mod n 10). lia.
Qed.

Lemma nat_str_bound (n : Z) :
  (0 <= n)%Z -> (n < 10 ^ Z.of_nat (S (Z.to_nat (Z.log2 n) + 1)))%Z.
Proof.
  intros Hn. pose proof (Z.log2_nonneg n).
  replace (Z.of_nat (S (Z.to_nat (Z.log2 n) + 1))) with (Z.log2 n + 2)%Z by lia.
  destruct (Z.eq_dec n 0) as [->|Hn0]; [simpl; lia|].
  destruct (Z.log2_spec n) as [_ Hlt]; [lia|].
  apply Z.lt_le_trans with (2 ^ Z.succ (Z.log2 n))%Z; [exact Hlt|].
  apply Z.le_trans with (10 ^ Z.succ (Z.log2 n))%Z.
  - apply Z.pow_le_mono_l; lia.
  - apply Z.pow_le_mono_r; lia.
Qed.

Lemma digits_num_nat_str (n : Z) : (0 <= n)%Z -> digits_num (nat_str n) 0 = n.
Proof.
  intros Hn. unfold nat_str.
  rewrite nat_digits_num by (split; [lia | apply nat_str_bound; lia]). lia.
Qed.

Lemma digits_value_nat_str (n : Z) : (0 <= n)%Z -> digits_value (nat_str n) = Some n.
Proof.
  intros Hn. unfold digits_value.
  destruct (nat_str_ok n) as [Hd Hne].
  rewrite <- (str_app_nil (nat_str n)) at 1. rewrite digits_aux_app by exact Hd.
  rewrite digits_num_nat_str by exact Hn.
  destruct (String.length (nat_str n)) eqn:EL.
  - destruct (nat_str n); [contradiction | discriminate].
  - reflexivity.
Qed.

Lemma sign_dispatch (c : ascii) (r : string) :
  is_digit c = true ->
  py_int (String c r) = digits_value (String c r) /\
  py_float (String c r) = py_unsigned_float (String c r).
Proof.
  intros H. destruct c as [[] [] [] [] [] [] [] []]; try discriminate H; split; reflexivity.
Qed.

Lemma lower_digit (c : ascii) : is_digit c = true -> lower c = c.
Proof.
  unfold is_digit, lower. intros H. apply andb_prop in H as [H1 H2].
  apply Nat.leb_le in H1, H2.
  destruct (65 <=? nat_of_ascii c)%nat eqn:E; [apply Nat.leb_le in E; lia | reflexivity].
Qed.

Lemma py_unsigned_float_digit (c : ascii) (r : string) :
  is_digit c = true -> py_unsigned_float (String c r) = option_map to_double (py_decimal (String c r)).
Proof.
  intros H. unfold py_unsigned_float. cbn [lower_string]. rewrite (lower_digit c H).
  assert (Hi : c <> "i"%char) by (intros ->; discriminate H).
  assert (Hn : c <> "n"%char) by (intros ->; discriminate H).
  destruct (String.eqb (String c (lower_string r)) "inf") eqn:E1;
    [apply String.eqb_eq in E1; injection E1; intros; contradiction|].
  destruct (String.eqb (String c (lower_string r)) "infinity") eqn:E2;
    [apply String.eqb_eq in E2; injection E2; intros; contradiction|].
  destruct (String.eqb (String c (lower_string r)) "nan") eqn:E3;
    [apply String.eqb_eq in E3; injection E3; intros; contradiction|].
  reflexivity.
Qed.

Lemma py_int_int_str (z : Z) : py_int (int_str z) = Some z.
Proof.
  unfold int_str. destruct (z <? 0)%Z eqn:E.
  - apply Z.ltb_lt in E. cbn [append py_int].
    rewrite digits_value_nat_str by lia. simpl. f_equal. lia.
  - apply Z.ltb_ge in E. destruct (nat_str_ok z) as [Hd Hne].
    destruct (nat_str z) as [|c r] eqn:Ez; [contradiction|].
    simpl in Hd. apply andb_prop in Hd as [Hc _].
    rewrite (proj1 (sign_dispatch c r Hc)), <- Ez. apply digits_value_nat_str; exact E.
Qed.

Lemma py_decimal_fixed (ip fp : string) :
  ip <> "" -> all_digits ip = true -> all_digits fp = true -> String.length fp = 6%nat ->
  py_decimal (ip ++ "." ++ fp)
  = Some (Qmake (digits_num fp (digits_num ip 0)) (Z.to_pos (10 ^ 6))).
Proof.
  intros Hne Hi Hf Hl. unfold py_decimal.
  rewrite digits_aux_app by exact Hi. cbn [append digits_aux].
  change (is_digit ".") with false. change (Ascii.eqb "." "_") with false.
  cbn [andb]. cbv iota beta.
  rewrite <- (str_app_nil fp) at 1. rewrite digits_aux_app by exact Hf.
  cbn [digits_aux]. rewrite Hl.
  destruct (String.length ip) eqn:El; [destruct ip; [contradiction | discriminate]|].
  reflexivity.
Qed.

Lemma round_half_even_bound (r : Q) :
  0 <= r -> (0 <= round_half_even r)%Z /\ Qabs (r - inject_Z (round_half_even r)) <= 1 # 2.
Proof.
  intros Hr. unfold round_half_even.
  pose proof (Qfloor_le r) as Hf1. pose proof (Qlt_floor r) as Hf2.
  set (f := Qfloor r) in *.
  rewrite inject_Z_plus in Hf2. change (inject_Z 1) with 1 in Hf2.
  assert (Hf0 : (0 <= f)%Z).
  { apply Z.lt_succ_r. rewrite Zlt_Qlt. unfold Z.succ. rewrite inject_Z_plus.
    change (inject_Z 0) with 0. change (inject_Z 1) with 1. lra. }
  assert (Hf0' : 0 <= inject_Z f) by (change 0 with (inject_Z 0); rewrite <- Zle_Qle; exact Hf0).
  destruct (Qle_bool (1 # 2) (r - inject_Z f)) eqn:E1.
  - apply Qle_bool_iff in E1.
    assert (Hup : (0 <= f + 1)%Z /\ Qabs (r - inject_Z (f + 1)) <= 1 # 2).
    { split; [lia|]. rewrite inject_Z_plus. change (inject_Z 1) with 1.
      apply Qabs_Qle_condition. split; lra. }
    destruct (Qeq_bool (r - inject_Z f) (1 # 2)) eqn:E2.
    + apply Qeq_bool_iff in E2. destruct (Z.even f); [|exact Hup].
      split; [exact Hf0|]. apply Qabs_Qle_condition. split; lra.
    + exact Hup.
  - split; [exact Hf0|].
    assert (E1' : ~ (1 # 2) <= r - inject_Z f) by (intros H; apply Qle_bool_iff in H; congruence).
    apply Qnot_le_lt in E1'.
    apply Qabs_Qle_condition. split; lra.
Qed.

Lemma close_scaled (a : Q) (n : Z) :
  Qabs (a * inject_Z (10 ^ 6) - inject_Z n) <= 1 # 2 ->
  Qabs (a - (n # Z.to_pos (10 ^ 6))) <= 1 # 2000000.
Proof.
  intros H. apply Qabs_Qle_condition in H as [H1 H2]. apply Qabs_Qle_condition.
  change (Z.to_pos (10 ^ 6)) with 1000000%positive.
  change (inject_Z (10 ^ 6)) with 1000000 in H1, H2.
  rewrite (Qmake_Qdiv n). change (inject_Z (Z.pos 1000000)) with 1000000.
  unfold Qdiv. change (/ 1000000) with (1 # 1000000).
  split; lra.
Qed.

Lemma py_float_fmt6 (x : pyfloat) :
  exists v, py_float (fmt6 x) = Some v /\ (fin_bounded x -> close6 x v).
Proof.
  destruct x as [q|[|]|].
  2: { exists (Inf true). split; reflexivity. }
  2: { exists (Inf false). split; reflexivity. }
  2: { exists NaN. split; [reflexivity | intros _; exact I]. }
  unfold fmt6.
  set (neg := negb (Qle_bool 0 q)).
  set (a := if neg then - q else q).
  set (n := round_half_even (a * inject_Z (10 ^ 6))).
  assert (Ha : 0 <= a).
  { unfold a, neg. destruct (Qle_bool 0 q) eqn:E; simpl.
    - apply Qle_bool_iff; exact E.
    - assert (~ 0 <= q) by (intros H; apply Qle_bool_iff in H; congruence). lra. }
  assert (Ha6 : 0 <= a * inject_Z (10 ^ 6))
    by (change (inject_Z (10 ^ 6)) with 1000000; lra).
  destruct (round_half_even_bound _ Ha6) as [Hn Hb]. fold n in Hn, Hb.
  destruct (nat_str_ok (n / 10 ^ 6)) as [Hd Hne].
  destruct (fixed_digits_ok 6 (n mod 10 ^ 6)) as [Fd Fl].
  assert (Hdec : py_decimal (nat_str (n / 10 ^ 6) ++ "." ++ fixed_digits 6 (n mod 10 ^ 6))
                 = Some (n # Z.to_pos (10 ^ 6))).
  { rewrite py_decimal_fixed by auto.
    rewrite fixed_digits_num, digits_num_nat_str by (apply Z.div_pos; lia).
    change (Z.of_nat 6) with 6%Z. rewrite Z.mod_mod by lia.
    pose proof (Z.div_mod n (10 ^ 6)). do 2 f_equal. lia. }
  set (fp := fixed_digits 6 (n mod 10 ^ 6)) in *.
  destruct (nat_str (n / 10 ^ 6)) as [|c r] eqn:Ec; [contradiction|].
  simpl in Hd. apply andb_prop in Hd as [Hc _].
  assert (Hu : py_unsigned_float (String c r ++ "." ++ fp) = Some (to_double (n # Z.to_pos (10 ^ 6)))).
  { change (String c r ++ "." ++ fp) with (String c (r ++ "." ++ fp)).
    rewrite py_unsigned_float_digit by exact Hc.
    change (String c (r ++ "." ++ fp)) with (String c r ++ "." ++ fp).
    rewrite Hdec. reflexivity. }
  assert (Hc6 : Qabs (a - (n # Z.to_pos (10 ^ 6))) <= 1 # 2000000) by (apply close_scaled; exact Hb).
  assert (Qa : Qabs q == a).
  { unfold a, neg. destruct (Qle_bool 0 q) eqn:E; simpl.
    - apply Qabs_pos, Qle_bool_iff; exact E.
    - apply Qabs_neg. assert (~ 0 <= q) by (intros H; apply Qle_bool_iff in H; congruence). lra. }
  set (d := n # Z.to_pos (10 ^ 6)) in *.
  exists (if neg then fneg (to_double d) else to_double d). split.
  - destruct neg eqn:En.
    + change (("-" ++ String c r ++ "." ++ fp))
        with (String "-" (String c r ++ "." ++ fp)).
      cbn [py_float]. rewrite Hu. reflexivity.
    + change (("" ++ String c r ++ "." ++ fp)) with (String c (r ++ "." ++ fp)).
      rewrite (proj2 (sign_dispatch c _ Hc)).
      change (String c (r ++ "." ++ fp)) with (String c r ++ "." ++ fp). exact Hu.
  - intros Hq. cbn [fin_bounded] in Hq.
    apply Qabs_Qle_condition in Hc6 as [C1 C2].
    assert (Bd : - (Qabs q + 1) <= d <= Qabs q + 1) by lra.
    destruct (rnd d (Qabs q + 1) Bd) as [Ed Rd]; [change (inject_Z (2 ^ 40)) with 1099511627776; lra|].
    rewrite Ed. destruct neg eqn:En; cbn [fneg close6].
    + assert (Aq : a == - q) by reflexivity.
      apply Qabs_Qle_condition. split; lra.
    + assert (Aq : a == q) by reflexivity.
      apply Qabs_Qle_condition. split; lra.
Qed.

Lemma decode_line_body (b : box) :
  exists b', decode_line (line_body b) = LBox b' /\ (box_bounded b -> reloaded b b').
Proof.
  unfold decode_line. rewrite strip_line_body.
  assert (Hne : line_body b <> "").
  { unfold line_body. destruct (int_str (cls_id b)) eqn:E;
      [exfalso; exact (int_str_ne _ E) | discriminate]. }
  rewrite (eqb_ne _ Hne), split_line_body, py_int_int_str.
  destruct (py_float_fmt6 (x_center b)) as (vx & -> & Cx).
  destruct (py_float_fmt6 (y_center b)) as (vy & -> & Cy).
  destruct (py_float_fmt6 (width b)) as (vw & -> & Cw).
  destruct (py_float_fmt6 (height b)) as (vh & -> & Ch).
  eexists; split; [reflexivity|]. intros (Bx & By & Bw & Bh).
  repeat split; auto.
Qed.

Lemma decode_lines_bodies (anns acc : list box) :
  exists anns', decode_lines (map line_body anns) acc = ((acc ++ anns')%list, false) /\
                (Forall box_bounded anns -> Forall2 reloaded anns anns').
Proof.
  revert acc; induction anns as [|b anns IH]; intros acc.
  - exists []. rewrite app_nil_r. split; [reflexivity | constructor].
  - destruct (decode_line_body b) as (b' & Hb & Rb).
    destruct (IH (acc ++ [b'])%list) as (anns' & Ha & Ra).
    exists (b' :: anns'). cbn [map decode_lines]. rewrite Hb, Ha, <- app_assoc.
    split; [reflexivity|]. intros HB. inversion HB; subst.
    constructor; auto.
Qed.

Lemma decode_encode (anns : list box) :
  exists anns', decode (encode anns) = (anns', false) /\
                (Forall box_bounded anns -> Forall2 reloaded anns anns').
Proof.
  unfold decode. rewrite file_lines_encode.
  destruct (decode_lines_bodies anns []) as (anns' & H & R). exists anns'. auto.
Qed.

Lemma sign_other (c : ascii) (r : string) :
  c <> "-"%char -> c <> "+"%char ->
  py_int (String c r) = digits_value (String c r) /\
  py_float (String c r) = py_unsigned_float (String c r).
Proof.
  intros H1 H2.
  destruct c as [[] [] [] [] [] [] [] []];
    first [split; reflexivity | exfalso; first [apply H1; reflexivity | apply H2; reflexivity]].
Qed.

Lemma digits_value_first (s : string) (v : Z) :
  digits_value s = Some v -> exists c r, s = String c r /\ is_digit c = true.
Proof.
  unfold digits_value. destruct s as [|c r]; [discriminate|].
  intros H. exists c, r. split; [reflexivity|].
  destruct (is_digit c) eqn:E; [reflexivity|]. cbn [digits_aux] in H. rewrite E, andb_false_r in H.
  simpl in H. discriminate H.
Qed.

Lemma digits_value_float (s : string) (v : Z) :
  digits_value s = Some v -> py_unsigned_float s = Some (to_double (inject_Z v)).
Proof.
  intros H. destruct (digits_value_first s v H) as (c & r & -> & Hc).
  rewrite py_unsigned_float_digit by exact Hc.
  unfold digits_value in H. unfold py_decimal.
  destruct (digits_aux (String c r) 0 0) as [[ip ni] r1].
  destruct ni as [|k]; [discriminate|]. destruct r1; [|discriminate].
  injection H as ->. simpl. unfold scale10. simpl. rewrite Z.mul_1_r. reflexivity.
Qed.

Lemma py_int_float (t : string) (z : Z) :
  py_int t = Some z -> exists f, py_float t = Some f.
Proof.
  destruct t as [|c r]; [discriminate|].
  destruct (ascii_dec c "-") as [->|Hm].
  - cbn [py_int py_float]. destruct (digits_value r) as [v|] eqn:E; [|discriminate].
    intros _. rewrite (digits_value_float r v E). simpl. eauto.
  - destruct (ascii_dec c "+") as [->|Hp].
    + cbn [py_int py_float]. intros H. rewrite (digits_value_float r z H). eauto.
    + destruct (sign_other c r Hm Hp) as [-> ->]. intros H.
      rewrite (digits_value_float _ z H). eauto.
Qed.

Lemma stats_line_decode (l : string) :
  (forall b, decode_line l = LBox b -> exists r, stats_line l = RRow r) /\
  (decode_line l = LSkip -> stats_line l = RSkip).
Proof.
  unfold decode_line, stats_line.
  destruct (String.eqb (strip l) ""); [split; [discriminate | reflexivity]|].
  destruct (split (strip l)) as [|p0 [|p1 [|p2 [|p3 [|p4 [|p5 rest]]]]]];
    try (split; [discriminate | reflexivity]).
  destruct (py_int p0) as [c|] eqn:E0; [|split; discriminate].
  destruct (py_int_float _ _ E0) as [f0 ->].
  destruct (py_float p1), (py_float p2), (py_float p3), (py_float p4);
    split; try discriminate.
  intros b _. eexists; reflexivity.
Qed.

Lemma stats_lines_mono (ls : list string) acc :
  (List.length acc <= List.length (stats_lines ls acc))%nat.
Proof.
  revert acc; induction ls as [|l ls IH]; intros acc; simpl; [lia|].
  destruct (stats_line l); [apply IH | | lia].
  specialize (IH (acc ++ [r])%list). rewrite length_app in IH. simpl in IH. lia.
Qed.

Lemma stats_lines_length_app (ls : list string) acc acc' :
  List.length (stats_lines ls (acc ++ acc')%list)
  = (List.length acc + List.length (stats_lines ls acc'))%nat.
Proof.
  revert acc'; induction ls as [|l ls IH]; intros acc'; simpl; [apply length_app|].
  destruct (stats_line l); [apply IH | | apply length_app].
  rewrite <- app_assoc. apply IH.
Qed.

Lemma decode_lines_le_stats (ls : list string) (acc : list box) acc' :
  (List.length acc <= List.length acc')%nat ->
  (List.length (fst (decode_lines ls acc)) <= List.length (stats_lines ls acc'))%nat.
Proof.
  revert acc acc'; induction ls as [|l ls IH]; intros acc acc' Hle; simpl; [exact Hle|].
  destruct (stats_line_decode l) as [HB HS].
  destruct (decode_line l) as [|b|] eqn:E.
  - rewrite (HS eq_refl). apply IH, Hle.
  - destruct (HB b eq_refl) as [r ->]. apply IH. rewrite !length_app. simpl. lia.
  - simpl. pose proof (stats_lines_mono (l :: ls) acc') as M. simpl in M.
    destruct (stats_line l); [| |lia].
    + apply (Nat.le_trans _ _ _ Hle). apply stats_lines_mono.
    + apply (Nat.le_trans _ _ _ Hle). specialize (stats_lines_mono ls (acc' ++ [r])%list).
      rewrite length_app. lia.
Qed.

Lemma stats_line_body (b : box) : exists r, stats_line (line_body b) = RRow r.
Proof.
  destruct (decode_line_body b) as (b' & H & _).
  exact (proj1 (stats_line_decode _) b' H).
Qed.

Lemma stats_lines_encode (anns : list box) :
  List.length (stats_lines (file_lines (encode anns)) []) = List.length anns.
Proof.
  rewrite file_lines_encode.
  assert (G : forall acc, List.length (stats_lines (map line_body anns) acc)
                          = (List.length acc + List.length anns)%nat).
  { induction anns as [|b anns IH]; intros acc; simpl; [lia|].
    destruct (stats_line_body b) as (r & ->). rewrite IH, length_app. simpl. lia. }
  apply G.
Qed.





(** [get_annotations_for_image] never counts fewer rows for an image than
    [load_annotations_for_current_image] loads boxes from the same file:
    it reads the class with [float], so a line that raises in the loader
    may still count. *)
Theorem count_not_below_loaded (s s2 : session) rows :
  (0 <= current_image_index s < Z.of_nat (List.length (image_files s)))%Z ->
  load_annotations_for_current_image s = Some s2 ->
  get_annotations_for_image s (current_image_index s) = Some rows ->
  output_folder s <> "" ->
  (List.length (annotations s2) <= List.length rows)%nat.
Proof.
  intros Hi Hl Hg Ho.
  assert (Hne : image_files s <> []) by (intros E; rewrite E in Hi; simpl in Hi; lia).
  destruct (py_index_in_range _ _ Hi) as [f Hf].
  unfold load_annotations_for_current_image in Hl. unfold get_annotations_for_image in Hg.
  rewrite is_empty_list_false in Hl, Hg by exact Hne.
  apply String.eqb_neq in Ho. rewrite Ho in Hl, Hg. rewrite Hf in Hl, Hg.
  assert (E : (Z.of_nat (List.length (image_files s)) <=? current_image_index s)%Z = false)
    by (apply Z.leb_gt; lia).
  rewrite E in Hg. simpl in Hl, Hg.
  injection Hl as <-. simpl.
  destruct (disk s (label_path s f)) as [t|]; injection Hg as <-; [|simpl; lia].
  apply decode_lines_le_stats. simpl. lia.
Qed.

Lemma count_not_below_loaded_witness :
  exists s2 rows,
    load_annotations_for_current_image bad_label_session = Some s2 /\
    get_annotations_for_image bad_label_session 0 = Some rows /\
    List.length (annotations s2) = 0%nat /\ List.length rows = 2%nat /\
    (List.length (annotations s2) <= List.length rows)%nat.
Proof.
  eexists. eexists. split; [reflexivity|]. split; [reflexivity|].
  split; [reflexivity|]. split; [reflexivity|].
  apply (count_not_below_loaded bad_label_session).
  - simpl. lia.
  - reflexivity.
  - reflexivity.
  - discriminate.
Defined.

(** ** The image list *)

Lemma insert_sorted_perm (x : string) (l : list string) : Permutation (insert_sorted x l) (x :: l).
Proof.
  induction l as [|y l IH]; simpl; [reflexivity|].
  destruct (String.leb x y); [reflexivity|].
  rewrite IH. apply perm_swap.
Qed.

Lemma sort_strings_perm (l : list string) : Permutation (sort_strings l) l.
Proof.
  induction l as [|x l IH]; simpl; [reflexivity|].
  rewrite insert_sorted_perm, IH. reflexivity.
Qed.

Lemma insert_sorted_sorted (x : string) (l : list string) :
  Sorted (fun a b => String.leb a b = true) l ->
  Sorted (fun a b => String.leb a b = true) (insert_sorted x l).
Proof.
  induction 1 as [|y l Hs IH Hhd]; simpl; [repeat constructor|].
  destruct (String.leb x y) eqn:E; [repeat constructor; assumption|].
  assert (Hyx : String.leb y x = true)
    by (destruct (String.leb_total x y); [congruence | assumption]).
  constructor; [exact IH|].
  destruct l as [|z l]; simpl; [constructor; exact Hyx|].
  inversion Hhd; subst. destruct (String.leb x z); constructor; assumption.
Qed.

Lemma sort_strings_sorted (l : list string) :
  Sorted (fun a b => String.leb a b = true) (sort_strings l).
Proof. induction l as [|x l IH]; simpl; [constructor | apply insert_sorted_sorted, IH]. Qed.



(** ** The class registry *)

(** [add_class] keeps the registry free of duplicates: it either leaves it
    unchanged or appends the stripped name, which is non-empty and was not
    there, and then the viewer's [class_names] is the new registry. *)
Theorem add_class_no_duplicates (s : session) (name : string) (ok : bool) :
  NoDup (classes s) ->
  NoDup (classes (add_class s name ok)) /\
  (classes (add_class s name ok) = classes s \/
   (classes (add_class s name ok) = classes s ++ [strip name] /\
    strip name <> "" /\ ~ In (strip name) (classes s) /\
    class_names (add_class s name ok) = classes (add_class s name ok)))%list.
Proof.
  intros Hnd. unfold add_class.
  destruct (ok && negb (String.eqb (strip name) "")) eqn:Eok; [|auto].
  apply andb_prop in Eok as [_ Ene]. apply negb_true_iff, String.eqb_neq in Ene.
  destruct (existsb (String.eqb (strip name)) (classes s)) eqn:Ex; [auto|].
  assert (Hnin : ~ In (strip name) (classes s)).
  { intros Hin. assert (existsb (String.eqb (strip name)) (classes s) = true)
      by (apply existsb_exists; exists (strip name); split; [exact Hin | apply String.eqb_refl]).
    congruence. }
  simpl. split.
  - apply NoDup_app; [exact Hnd | repeat constructor; simpl; tauto |].
    intros x Hx Hy. destruct Hy as [<-|[]]. contradiction.
  - right. auto.
Qed.

Lemma add_class_no_duplicates_witness :
  NoDup (classes (add_class (demo_session "out" [] ["car"; "dog"] 0) " cat " true)) /\
  (classes (add_class (demo_session "out" [] ["car"; "dog"] 0) " cat " true) = ["car"; "dog"] \/
   (classes (add_class (demo_session "out" [] ["car"; "dog"] 0) " cat " true)
    = ["car"; "dog"] ++ [strip " cat "] /\
    strip " cat " <> "" /\ ~ In (strip " cat ") ["car"; "dog"] /\
    class_names (add_class (demo_session "out" [] ["car"; "dog"] 0) " cat " true)
    = classes (add_class (demo_session "out" [] ["car"; "dog"] 0) " cat " true)))%list.
Proof.
  apply (add_class_no_duplicates (demo_session "out" [] ["car"; "dog"] 0)).
  simpl. constructor.
  - intros [H|[]]. discriminate.
  - constructor; [intros []|constructor].
Defined.

Lemma file_lines_classes_text (cs : list string) :
  Forall (fun c => no_nl c = true) cs -> file_lines (classes_text cs) = cs.
Proof.
  unfold file_lines. induction 1 as [|c cs Hc _ IH]; [reflexivity|].
  change (classes_text (c :: cs)) with (c ++ nl ++ classes_text cs). rewrite lines_aux_tok by exact Hc. rewrite lines_aux_nl, IH. reflexivity.
Qed.



(** For a non-empty registry, [cycle_class] selects a row in range, from
    any selected row (none selected counts as row 0); from a row in range,
    cycling back in the opposite direction returns to it. *)
Theorem cycle_class_in_range (cs : list string) (row d : Z) :
  cs <> [] ->
  exists r, cycle_class cs row d = Some r /\ (0 <= r < Z.of_nat (List.length cs))%Z /\
    ((0 <= row < Z.of_nat (List.length cs))%Z -> cycle_class cs r (- d) = Some row).
Proof.
  intros Hne. destruct cs as [|c cs']; [contradiction|].
  set (cs := c :: cs') in *. set (n := Z.of_nat (List.length cs)).
  assert (Hn : (0 < n)%Z) by (unfold n, cs; simpl; lia).
  set (row0 := if (row <? 0)%Z then 0%Z else row).
  exists ((row0 + d) mod n)%Z. split; [reflexivity|]. split; [apply Z.mod_pos_bound; exact Hn|].
  intros Hr. unfold row0. replace (row <? 0)%Z with false by (symmetry; apply Z.ltb_ge; lia).
  unfold cycle_class, cs. fold cs. fold n.
  replace (((row + d) mod n <? 0)%Z) with false
    by (symmetry; apply Z.ltb_ge; apply Z.mod_pos_bound; exact Hn).
  f_equal. rewrite Z.add_mod_idemp_l by lia.
  replace (row + d + - d)%Z with row by lia. apply Z.mod_small. lia.
Qed.

Lemma cycle_class_in_range_witness :
  exists r, cycle_class ["car"; "dog"; "cat"] 2 1 = Some r /\
    (0 <= r < Z.of_nat (List.length ["car"; "dog"; "cat"]))%Z /\
    ((0 <= 2 < Z.of_nat (List.length ["car"; "dog"; "cat"]))%Z ->
     cycle_class ["car"; "dog"; "cat"] r (- 1) = Some 2%Z).
Proof. apply cycle_class_in_range. discriminate. Defined.

(** ** The viewer *)

Lemma update_display_frame (v v' : viewer) :
  update_display v = Some v' ->
  v_image v' = v_image v /\ v_annotations v' = v_annotations v /\
  v_current_class v' = v_current_class v /\ v_min_box_size v' = v_min_box_size v /\
  v_drawing v' = v_drawing v /\ v_start v' = v_start v /\ v_end v' = v_end v /\
  v_window_classes v' = v_window_classes v.
Proof.
  unfold update_display. destruct (v_image v) as [[h w]|] eqn:Ei.
  2: { intros H; injection H as <-; rewrite Ei; auto 10. }
  destruct (negb _); [discriminate|]. destruct ((w =? 0)%Z || (h =? 0)%Z); [discriminate|].
  destruct (v_widget v) as [ww wh].
  intros H; injection H as <-; simpl; rewrite Ei; auto 10.
Qed.

Lemma refresh_frame (v v' : viewer) :
  refresh v = Some v' ->
  v_image v' = v_image v /\ v_annotations v' = v_annotations v /\
  v_current_class v' = v_current_class v /\ v_min_box_size v' = v_min_box_size v.
Proof.
  unfold refresh. destruct (update_display v) as [v1|] eqn:E; [|discriminate].
  destruct (forallb _ _); [|discriminate]. intros H; injection H as <-.
  destruct (update_display_frame _ _ E) as (H1 & H2 & H3 & H4 & _). auto.
Qed.

Lemma pointer_image (v : viewer) (x y : Z) :
  pointer v x y <> None -> exists h w, v_image v = Some (h, w).
Proof.
  unfold pointer, widget_to_image_coords. destruct (v_image v) as [[h w]|]; [eauto|].
  intros H; contradiction.
Qed.

(** A left click (press then release without a move) on the image adds no
    box and leaves the viewer not drawing, with no start or end point. *)
Theorem click_adds_nothing (v : viewer) (x y : Z) :
  pointer v x y <> None ->
  exists v1 v2, mouse_press v LeftButton x y = Some v1 /\ mouse_release v1 LeftButton = Some v2 /\
    v_annotations v2 = v_annotations v /\ v_drawing v2 = false /\
    v_start v2 = None /\ v_end v2 = None.
Proof.
  intros Hp. destruct (pointer_image v x y Hp) as (h & w & Ei).
  unfold mouse_press. rewrite Ei.
  destruct (pointer v x y) as [[ix iy]|]; [|contradiction].
  eexists; eexists; split; [reflexivity|]. split; [reflexivity|]. simpl. auto.
Qed.

Lemma click_adds_nothing_witness :
  exists v1 v2,
    mouse_press (demo_viewer (Some (100, 100)%Z) (100, 100)%Z 1) LeftButton 10 10 = Some v1 /\
    mouse_release v1 LeftButton = Some v2 /\
    v_annotations v2 = [] /\ v_drawing v2 = false /\ v_start v2 = None /\ v_end v2 = None.
Proof.
  apply (click_adds_nothing (demo_viewer (Some (100, 100)%Z) (100, 100)%Z 1) 10 10).
  intros H. vm_compute in H. discriminate H.
Defined.

(** A left press at one point, a move to another and a release, when none
    raises, leave the boxes that [add_annotation] gives for the two
    image points, and the viewer not drawing. *)
Theorem drag_creates_box (v v1 v2 v3 : viewer) (px py qx qy : Z) (P Q : Z * Z) :
  pointer v px py = Some P -> pointer v qx qy = Some Q ->
  mouse_press v LeftButton px py = Some v1 ->
  mouse_move v1 qx qy = Some v2 ->
  mouse_release v2 LeftButton = Some v3 ->
  v_annotations v3 = add_annotation (v_image v) (Some P) (Some Q) (v_min_box_size v)
                                    (v_current_class v) (v_annotations v) /\
  v_drawing v3 = false /\ v_start v3 = None /\ v_end v3 = None.
Proof.
  intros HP HQ Hpress Hmove Hrel.
  destruct (pointer_image v px py ltac:(congruence)) as (h & w & Ei).
  unfold mouse_press in Hpress. rewrite Ei, HP in Hpress. destruct P as [x1 y1].
  injection Hpress as <-.
  unfold mouse_move in Hmove. simpl in Hmove. rewrite Ei in Hmove.
  assert (HQ' : pointer (set_drawing v true (Some (x1, y1)) None) qx qy = Some Q) by exact HQ.
  rewrite HQ' in Hmove. destruct Q as [x2 y2]. simpl in Hmove.
  destruct (update_display_frame _ _ Hmove) as (I2 & A2 & C2 & M2 & D2 & S2 & E2 & _).
  simpl in I2, A2, C2, M2, D2, S2, E2.
  unfold mouse_release in Hrel. rewrite D2, S2, E2 in Hrel.
  unfold add_step in Hrel. simpl in Hrel. rewrite I2, Ei, M2 in Hrel.
  destruct ((Z.abs (x2 - x1) <? v_min_box_size v)%Z || (Z.abs (y2 - y1) <? v_min_box_size v)%Z)
    eqn:Esmall.
  - injection Hrel as <-. simpl. rewrite A2. unfold add_annotation. rewrite Ei, Esmall. auto.
  - destruct (refresh _) as [v4|] eqn:Er; [|discriminate]. injection Hrel as <-.
    destruct (refresh_frame _ _ Er) as (_ & A4 & _ & _). simpl. rewrite A4. simpl.
    rewrite Ei, Esmall, C2, A2. auto.
Qed.

Lemma drag_creates_box_witness :
  exists v1 v2 v3,
    mouse_press (demo_viewer (Some (100, 100)%Z) (100, 100)%Z 1) LeftButton 10 10 = Some v1 /\
    mouse_move v1 50 60 = Some v2 /\
    mouse_release v2 LeftButton = Some v3 /\
    v_annotations v3 = add_annotation (Some (100, 100)%Z) (Some (10, 10)%Z) (Some (50, 60)%Z)
                                      10 0 [] /\
    v_drawing v3 = false /\ v_start v3 = None /\ v_end v3 = None.
Proof.
  do 3 eexists. split; [vm_lhs; reflexivity|]. split; [vm_lhs; reflexivity|].
  split; [vm_lhs; reflexivity|].
  refine (drag_creates_box (demo_viewer (Some (100, 100)%Z) (100, 100)%Z 1) _ _ _
                           10%Z 10%Z 50%Z 60%Z (10, 10)%Z (50, 60)%Z _ _ _ _ _).
  - vm_lhs; reflexivity.
  - vm_lhs; reflexivity.
  - vm_lhs; reflexivity.
  - vm_lhs; reflexivity.
  - vm_lhs; reflexivity.
Defined.

Lemma qtrunc_nonneg (q : Q) : 0 <= q -> qtrunc q = Qfloor q.
Proof. intros H. unfold qtrunc. apply Qle_bool_iff in H. rewrite H. reflexivity. Qed.

Lemma centre_fits (m t : Z) :
  (0 <= t)%Z -> (t <= m)%Z -> (0 <= (m - t) / 2)%Z /\ ((m - t) / 2 + t <= m)%Z.
Proof.
  intros H0 H1. split.
  - apply Z.div_pos; lia.
  - assert ((m - t) / 2 <= m - t)%Z by (apply Z.div_le_upper_bound; lia). lia.
Qed.



(** ** Unreadable images and choosing a folder *)

Lemma path_join_annotations_ne (folder : string) : path_join folder "annotations" <> "".
Proof.
  unfold path_join. destruct (String.eqb folder "" || ends_with_slash folder);
    intros E; apply (f_equal String.length) in E; rewrite !str_length_app in E;
    simpl in E; lia.
Qed.

Lemma load_current_image_no_output (s s' : session) :
  output_folder s = "" -> load_current_image s = Some s' ->
  annotations s' = annotations s /\ output_folder s' = output_folder s /\
  image_files s' = image_files s /\ current_image_index s' = current_image_index s /\
  disk s' = disk s.
Proof.
  intros Ho. unfold load_current_image.
  destruct (is_empty_list (image_files s)
            || (Z.of_nat (List.length (image_files s)) <=? current_image_index s)%Z).
  { intros H; injection H as <-; auto. }
  destruct (py_index (image_files s) (current_image_index s)) as [f|]; [|discriminate].
  destruct (readable s (path_join (images_folder s) f)) as [d|].
  2: { intros H; injection H as <-; simpl; auto. }
  unfold load_annotations_for_current_image; simpl. rewrite Ho, orb_true_r.
  intros H; injection H as <-; simpl; auto.
Qed.

Lemma load_classes_from_file_frame (s : session) (p : string) :
  annotations (load_classes_from_file s p) = annotations s /\
  output_folder (load_classes_from_file s p) = output_folder s /\
  image_files (load_classes_from_file s p) = image_files s /\
  current_image_index (load_classes_from_file s p) = current_image_index s.
Proof. unfold load_classes_from_file. destruct (disk s p); simpl; auto. Qed.




